(** * classDeck: the classroom data model (classroom/models.py)

    A shallow embedding of the Django models of classDeck and of the three
    pieces of behaviour the module has besides its schema: the query
    [Student.get_unanswered_questions], the [Channel.save] override and the
    [get_current_year] default of [MonthlySchedule.year]; together with the
    part of the ORM they rest on (cascading deletes, unique columns,
    [order_by], [slugify]). *)

From Stdlib Require Import ZArith NArith Ascii String.
From Stdlib Require DecimalZ.
From Corelib Require Import PrimFloat.
From stdpp Require Import base option list sorting gmap.

Local Open Scope Z_scope.

(** ** Python values *)

(** A Python [str] is a sequence of Unicode code points. *)
Abbreviation str := (list N).

(** A literal of Basic Latin characters. *)
Definition py (s : string) : str := N_of_ascii <$> list_ascii_of_string s.

Record datetime := {
  year : Z; month : Z; day : Z;
  hour : Z; minute : Z; second : Z; microsecond : Z
}.

Record time := { t_hour : Z; t_minute : Z; t_second : Z }.

(** ** Collation

    [order_by('text')] leaves the comparison of two texts to the collation of
    the database.  The model takes the binary one (SQLite's BINARY,
    PostgreSQL's "C"): texts are compared code point by code point, so that
    an upper-case letter sorts before every lower-case one. *)

Fixpoint str_leb (s t : str) : bool :=
  match s, t with
  | [], _ => true
  | _ :: _, [] => false
  | c :: s', d :: t' =>
      if (c <? d)%N then true
      else if (c =? d)%N then str_leb s' t'
      else false
  end.

Definition str_le (s t : str) : Prop := str_leb s t = true.

(** ** Rows

    Every model has the implicit [id] primary key of Django; a table is a
    finite map from primary keys to rows.  [User], [Subject] and [Student]
    rows are referred to by their keys only. *)

Record Quiz := {
  quiz_owner : Z;
  quiz_name : str;
  quiz_subject : Z;
  quiz_duration : option time
}.

Record Question := {
  question_quiz : Z;
  question_text : str
}.

Global Instance Question_eq_dec : EqDecision Question.
Proof. solve_decision. Defined.

Record Answer := {
  answer_question : Z;
  answer_text : str;
  answer_is_correct : bool
}.

Record Assignment := {
  assignment_owner : Z;
  assignment_name : str;
  assignment_subject : Z;
  assignment_file : option str;
  assignment_uploaded_on : option datetime;
  assignment_note : option str;
  assignment_last_date : option datetime
}.

Record TakenQuiz := {
  taken_student : Z;
  taken_quiz : Z;
  taken_score : float;
  taken_date : datetime
}.

Record StudentAnswer := {
  sa_student : Z;
  sa_answer : option Z
}.

Record AssignmentSubmission := {
  sub_assignment : option Z;
  sub_student : Z;
  sub_file : option str;
  sub_score : option Z;
  sub_date : option datetime;
  sub_late_submission : bool;
  sub_remarks : option str
}.

Record Channel := {
  channel_name : str;
  channel_admin : str;
  channel_slug : str;
  channel_description : str
}.

Record MonthlySchedule := {
  ms_month : Z;
  ms_year : Z;
  ms_days : Z;
  ms_user : Z
}.

(** The database: one table per model the development speaks about.
    [student_assignments] is the table behind [Student.assignments]
    (student, assignment). *)
Record DB := {
  quizzes : gmap Z Quiz;
  questions : gmap Z Question;
  answers : gmap Z Answer;
  assignments : gmap Z Assignment;
  student_assignments : gmap Z (Z * Z);
  taken_quizzes : gmap Z TakenQuiz;
  student_answers : gmap Z StudentAnswer;
  assignment_submissions : gmap Z AssignmentSubmission;
  channels : gmap Z Channel;
  monthly_schedules : gmap Z MonthlySchedule
}.

Definition empty_db : DB :=
  {| quizzes := ∅; questions := ∅; answers := ∅; assignments := ∅;
     student_assignments := ∅; taken_quizzes := ∅; student_answers := ∅;
     assignment_submissions := ∅; channels := ∅; monthly_schedules := ∅ |}.

(** ** Student.get_unanswered_questions *)

(** [answer__question__quiz=quiz] and [answer__question__pk] walk from a
    [StudentAnswer] over its answer to the question: an inner join, which a
    row with a null answer (or a dangling one) does not take part in. *)
Definition answer__question (db : DB) (sa : StudentAnswer) : option (Z * Question) :=
  a_pk ← sa_answer sa;
  a ← answers db !! a_pk;
  q ← questions db !! answer_question a;
  Some (answer_question a, q).

(** [self.quiz_answers.filter(answer__question__quiz=quiz)
        .values_list('answer__question__pk', flat=True)] *)
Definition answered_questions (db : DB) (student quiz : Z) : list Z :=
  omap (λ kr : Z * StudentAnswer,
          if bool_decide (sa_student kr.2 = student) then
            '(q_pk, q) ← answer__question db kr.2;
            if bool_decide (question_quiz q = quiz) then Some q_pk else None
          else None)
       (map_to_list (student_answers db)).

(** [quiz.questions]: the questions whose [quiz] is this one. *)
Definition quiz_questions (db : DB) (quiz : Z) : list (Z * Question) :=
  filter (λ kq : Z * Question, question_quiz kq.2 = quiz) (map_to_list (questions db)).

(** [.exclude(pk__in=pks)] *)
Definition exclude_pk_in {R} (pks : list Z) (rows : list (Z * R)) : list (Z * R) :=
  filter (λ kr : Z * R, kr.1 ∉ pks) rows.

Definition text_le (x y : Z * Question) : Prop :=
  str_le (question_text x.2) (question_text y.2).

Global Instance text_le_dec : RelDecision text_le.
Proof. intros x y. unfold text_le, str_le. apply _. Defined.

(** [.order_by('text')] *)
Definition order_by_text (rows : list (Z * Question)) : list (Z * Question) :=
  merge_sort text_le rows.

Definition get_unanswered_questions (db : DB) (self quiz : Z) : list (Z * Question) :=
  let answered_questions := answered_questions db self quiz in
  let questions := order_by_text (exclude_pk_in answered_questions (quiz_questions db quiz)) in
  questions.

(** The student has a recorded answer to the question: one of their
    [StudentAnswer] rows points at one of the answers of the question. *)
Definition has_answered (db : DB) (student q_pk : Z) : Prop :=
  ∃ k sa a_pk a,
    student_answers db !! k = Some sa ∧ sa_student sa = student ∧
    sa_answer sa = Some a_pk ∧ answers db !! a_pk = Some a ∧
    answer_question a = q_pk.


(** ** Deleting rows: [on_delete]

    [Model.delete()] collects, table by table, the rows whose foreign key
    points at a row about to go and treats them as the key's [on_delete]
    says; the rows it deletes are followed in turn. *)

Inductive on_delete := CASCADE | SET_NULL | DO_NOTHING.

Record ForeignKey (R : Type) := {
  fk_value : R → option Z;      (* the key in the column; [None] for NULL *)
  fk_set_null : R → R;          (* the row with NULL in the column *)
  fk_on_delete : on_delete
}.
Arguments fk_value {R}.
Arguments fk_set_null {R}.
Arguments fk_on_delete {R}.

(** The foreign keys of models.py, with the [on_delete] each one declares. *)

(* quiz = models.ForeignKey(Quiz, on_delete=models.CASCADE, related_name='questions') *)
Definition Question_quiz : ForeignKey Question :=
  {| fk_value q := Some (question_quiz q);
     fk_set_null q := q;
     fk_on_delete := CASCADE |}.

(* question = models.ForeignKey(Question, on_delete=models.CASCADE, related_name='answers') *)
Definition Answer_question : ForeignKey Answer :=
  {| fk_value a := Some (answer_question a);
     fk_set_null a := a;
     fk_on_delete := CASCADE |}.

(* quiz = models.ForeignKey(Quiz, on_delete=models.CASCADE, related_name='taken_quizzes') *)
Definition TakenQuiz_quiz : ForeignKey TakenQuiz :=
  {| fk_value t := Some (taken_quiz t);
     fk_set_null t := t;
     fk_on_delete := CASCADE |}.

(* answer = models.ForeignKey(Answer, on_delete=models.CASCADE, related_name='+', null=True) *)
Definition StudentAnswer_answer : ForeignKey StudentAnswer :=
  {| fk_value sa := sa_answer sa;
     fk_set_null sa := {| sa_student := sa_student sa; sa_answer := None |};
     fk_on_delete := CASCADE |}.

(* assignment = models.ForeignKey(Assignment, on_delete=models.CASCADE, null=True) *)
Definition AssignmentSubmission_assignment : ForeignKey AssignmentSubmission :=
  {| fk_value s := sub_assignment s;
     fk_set_null s :=
       {| sub_assignment := None; sub_student := sub_student s;
          sub_file := sub_file s; sub_score := sub_score s;
          sub_date := sub_date s;
          sub_late_submission := sub_late_submission s;
          sub_remarks := sub_remarks s |};
     fk_on_delete := CASCADE |}.

(* the assignment column of the table behind Student.assignments *)
Definition Student_assignments_assignment : ForeignKey (Z * Z) :=
  {| fk_value sa := Some sa.2;
     fk_set_null sa := sa;
     fk_on_delete := CASCADE |}.

(** The row refers to one of the keys [pks]. *)
Definition references {R} (f : ForeignKey R) (pks : gset Z) (r : R) : Prop :=
  match fk_value f r with
  | Some k => k ∈ pks
  | None => False
  end.

Global Instance references_dec {R} (f : ForeignKey R) pks r :
  Decision (references f pks r).
Proof. unfold references. destruct (fk_value f r); apply _. Defined.

(** What becomes of a table when the rows [pks] of the table its key [f]
    points into are deleted: the table that is left, and the keys of its own
    rows that were deleted with them. *)
Definition collect {R} (f : ForeignKey R) (pks : gset Z) (t : gmap Z R)
  : gmap Z R * gset Z :=
  match fk_on_delete f with
  | CASCADE =>
      (filter (λ kr : Z * R, ¬ references f pks kr.2) t,
       dom (filter (λ kr : Z * R, references f pks kr.2) t))
  | SET_NULL =>
      ((λ r, if decide (references f pks r) then fk_set_null f r else r) <$> t, ∅)
  | DO_NOTHING => (t, ∅)
  end.

Definition delete_pks {R} (pks : gset Z) (t : gmap Z R) : gmap Z R :=
  filter (λ kr : Z * R, kr.1 ∉ pks) t.

Definition set_questions (t : gmap Z Question) (db : DB) : DB :=
  {| quizzes := quizzes db; questions := t; answers := answers db;
     assignments := assignments db;
     student_assignments := student_assignments db;
     taken_quizzes := taken_quizzes db;
     student_answers := student_answers db;
     assignment_submissions := assignment_submissions db;
     channels := channels db; monthly_schedules := monthly_schedules db |}.

Definition set_answers (t : gmap Z Answer) (db : DB) : DB :=
  {| quizzes := quizzes db; questions := questions db; answers := t;
     assignments := assignments db;
     student_assignments := student_assignments db;
     taken_quizzes := taken_quizzes db;
     student_answers := student_answers db;
     assignment_submissions := assignment_submissions db;
     channels := channels db; monthly_schedules := monthly_schedules db |}.

Definition set_student_answers (t : gmap Z StudentAnswer) (db : DB) : DB :=
  {| quizzes := quizzes db; questions := questions db; answers := answers db;
     assignments := assignments db;
     student_assignments := student_assignments db;
     taken_quizzes := taken_quizzes db;
     student_answers := t;
     assignment_submissions := assignment_submissions db;
     channels := channels db; monthly_schedules := monthly_schedules db |}.

Definition set_channels (t : gmap Z Channel) (db : DB) : DB :=
  {| quizzes := quizzes db; questions := questions db; answers := answers db;
     assignments := assignments db;
     student_assignments := student_assignments db;
     taken_quizzes := taken_quizzes db;
     student_answers := student_answers db;
     assignment_submissions := assignment_submissions db;
     channels := t; monthly_schedules := monthly_schedules db |}.

Definition set_monthly_schedules (t : gmap Z MonthlySchedule) (db : DB) : DB :=
  {| quizzes := quizzes db; questions := questions db; answers := answers db;
     assignments := assignments db;
     student_assignments := student_assignments db;
     taken_quizzes := taken_quizzes db;
     student_answers := student_answers db;
     assignment_submissions := assignment_submissions db;
     channels := channels db; monthly_schedules := t |}.

(** Answers, and with them what points at an answer. *)
Definition delete_answers (pks : gset Z) (db : DB) : DB :=
  let sas := collect StudentAnswer_answer pks (student_answers db) in
  set_answers (delete_pks pks (answers db)) (set_student_answers sas.1 db).

(** Questions, and with them what points at a question. *)
Definition delete_questions (pks : gset Z) (db : DB) : DB :=
  let ans := collect Answer_question pks (answers db) in
  let db := delete_answers ans.2 (set_answers ans.1 db) in
  set_questions (delete_pks pks (questions db)) db.

(** Quizzes, and with them what points at a quiz. *)
Definition delete_quizzes (pks : gset Z) (db : DB) : DB :=
  let qs := collect Question_quiz pks (questions db) in
  let db := delete_questions qs.2 (set_questions qs.1 db) in
  let tqs := collect TakenQuiz_quiz pks (taken_quizzes db) in
  {| quizzes := delete_pks pks (quizzes db);
     questions := questions db; answers := answers db;
     assignments := assignments db;
     student_assignments := student_assignments db;
     taken_quizzes := tqs.1;
     student_answers := student_answers db;
     assignment_submissions := assignment_submissions db;
     channels := channels db; monthly_schedules := monthly_schedules db |}.

Definition delete_assignments (pks : gset Z) (db : DB) : DB :=
  let subs := collect AssignmentSubmission_assignment pks (assignment_submissions db) in
  let sas := collect Student_assignments_assignment pks (student_assignments db) in
  {| quizzes := quizzes db; questions := questions db; answers := answers db;
     assignments := delete_pks pks (assignments db);
     student_assignments := sas.1;
     taken_quizzes := taken_quizzes db;
     student_answers := student_answers db;
     assignment_submissions := subs.1;
     channels := channels db; monthly_schedules := monthly_schedules db |}.

(** [instance.delete()] for the row with primary key [pk]. *)
Definition Quiz_delete (pk : Z) : DB → DB := delete_quizzes {[ pk ]}.
Definition Question_delete (pk : Z) : DB → DB := delete_questions {[ pk ]}.
Definition Answer_delete (pk : Z) : DB → DB := delete_answers {[ pk ]}.
Definition Assignment_delete (pk : Z) : DB → DB := delete_assignments {[ pk ]}.

(** Nothing points at a [StudentAnswer]. *)
Definition StudentAnswer_delete (pk : Z) (db : DB) : DB :=
  set_student_answers (delete_pks {[ pk ]} (student_answers db)) db.

(** ** Inserting rows *)

Inductive exception := IntegrityError | OverflowError.

Inductive outcome (A : Type) :=
  | Done (a : A)
  | Raise (e : exception).
Arguments Done {A}.
Arguments Raise {A}.

(** The key an insert gives a new row: one past the largest in the table. *)
Definition next_pk {R} (t : gmap Z R) : Z :=
  1 + map_fold (λ k _ m, Z.max k m) 0 t.

(** A foreign key column holds NULL or the key of a row of its table. *)
Definition fk_exists {R} (t : gmap Z R) (k : option Z) : bool :=
  match k with
  | Some k => bool_decide (is_Some (t !! k))
  | None => true
  end.

(** [StudentAnswer.objects.create(student=.., answer=..)]: the answer the
    row names has to exist (the student table is not part of the model). *)
Definition StudentAnswer_create (sa : StudentAnswer) (db : DB) : DB * outcome Z :=
  if fk_exists (answers db) (sa_answer sa) then
    let pk := next_pk (student_answers db) in
    (set_student_answers (<[pk := sa]> (student_answers db)) db, Done pk)
  else (db, Raise IntegrityError).

(** ** slugify (django.utils.text)

    [[
    def slugify(value, allow_unicode=False):
        value = str(value)
        if allow_unicode:
            value = unicodedata.normalize('NFKC', value)
        else:
            value = (unicodedata.normalize('NFKD', value)
                     .encode('ascii', 'ignore').decode('ascii'))
        value = re.sub(r'[^\w\s-]', '', value.lower())
        return re.sub(r'[-\s]+', '-', value).strip('-_')
    ]]

    (Django 3.2 and later.)  Normalisation, [str.lower] and the classes [\w]
    and [\s] read the Unicode character database of the interpreter, which is
    a parameter here. *)

Inductive normal_form := NFC | NFKC | NFD | NFKD.

Record unicodedata := {
  normalize : normal_form → str → str;
  lower : str → str;
  re_word : N → bool;          (* \w *)
  re_space : N → bool          (* \s *)
}.

Definition is_ascii (c : N) : Prop := (c < 128)%N.

(* .encode('ascii', 'ignore').decode('ascii') *)
Definition encode_ascii_ignore (s : str) : str := filter is_ascii s.

Definition hyphen : N := 45.
Definition underscore : N := 95.

(* re.sub(r'[^\w\s-]', '', s) *)
Definition sub_not_word_space_hyphen (U : unicodedata) (s : str) : str :=
  filter (λ c, re_word U c || re_space U c || (c =? hyphen)%N = true) s.

(* re.sub(r'[-\s]+', '-', s): [in_run] says that the character before was
   one of a run already replaced. *)
Fixpoint sub_hyphen_space_runs (U : unicodedata) (in_run : bool) (s : str) : str :=
  match s with
  | [] => []
  | c :: s' =>
      if (c =? hyphen)%N || re_space U c then
        if in_run then sub_hyphen_space_runs U true s'
        else hyphen :: sub_hyphen_space_runs U true s'
      else c :: sub_hyphen_space_runs U false s'
  end.

Fixpoint lstrip (chars : list N) (s : str) : str :=
  match s with
  | [] => []
  | c :: s' => if bool_decide (c ∈ chars) then lstrip chars s' else s
  end.

Definition rstrip (chars : list N) (s : str) : str :=
  reverse (lstrip chars (reverse s)).

Definition strip (chars : list N) (s : str) : str :=
  rstrip chars (lstrip chars s).

Definition slugify (U : unicodedata) (value : str) (allow_unicode : bool) : str :=
  let value :=
    if allow_unicode then normalize U NFKC value
    else encode_ascii_ignore (normalize U NFKD value) in
  let value := sub_not_word_space_hyphen U (lower U value) in
  strip [hyphen; underscore] (sub_hyphen_space_runs U false value).

(** *** The rows of the character database for Basic Latin *)

Definition ascii_lower (c : N) : N :=
  if (65 <=? c)%N && (c <=? 90)%N then (c + 32)%N else c.

Definition ascii_word (c : N) : bool :=
  (48 <=? c)%N && (c <=? 57)%N || (65 <=? c)%N && (c <=? 90)%N
  || (97 <=? c)%N && (c <=? 122)%N || (c =? underscore)%N.

(* Python's str whitespace below U+0080: \t \n \v \f \r, FS GS RS US, space *)
Definition ascii_space (c : N) : bool :=
  (9 <=? c)%N && (c <=? 13)%N || (28 <=? c)%N && (c <=? 32)%N.

(** What every version of the database says of Basic Latin: its characters
    are their own normal form in each of the four forms, only A-Z have a
    lower case, [\w] is letters, digits and the underscore. *)
Record basic_latin (U : unicodedata) : Prop := {
  normalize_ascii f s : Forall is_ascii s → normalize U f s = s;
  lower_ascii s : Forall is_ascii s → lower U s = ascii_lower <$> s;
  re_word_ascii c : is_ascii c → re_word U c = ascii_word c;
  re_space_ascii c : is_ascii c → re_space U c = ascii_space c
}.

(** An excerpt of the database with the rows of Basic Latin and of the CJK
    Unified Ideographs (U+4E00..U+9FFF: letters without case and without
    decomposition); a text of these two blocks is what it is meant for. *)
Definition cjk_ideograph (c : N) : bool := (19968 <=? c)%N && (c <=? 40959)%N.

Definition ucd_excerpt : unicodedata :=
  {| normalize _ s := s;
     lower s := ascii_lower <$> s;
     re_word c := ascii_word c || cjk_ideograph c;
     re_space c := ascii_space c |}.

(** ** Channel *)

(** A model instance in memory: its primary key, if it has one yet, and
    its fields. *)
Record ChannelInstance := {
  channel_pk : option Z;
  channel_fields : Channel
}.

Definition set_slug (slug : str) (self : ChannelInstance) : ChannelInstance :=
  {| channel_pk := channel_pk self;
     channel_fields :=
       {| channel_name := channel_name (channel_fields self);
          channel_admin := channel_admin (channel_fields self);
          channel_slug := slug;
          channel_description := channel_description (channel_fields self) |} |}.

Definition set_name (name : str) (self : ChannelInstance) : ChannelInstance :=
  {| channel_pk := channel_pk self;
     channel_fields :=
       {| channel_name := name;
          channel_admin := channel_admin (channel_fields self);
          channel_slug := channel_slug (channel_fields self);
          channel_description := channel_description (channel_fields self) |} |}.

(** [name] and [slug] are [unique=True]: no other row may hold the same. *)
Definition channel_unique (self : ChannelInstance) (k : Z) (r : Channel) : Prop :=
  Some k ≠ channel_pk self →
  channel_name r ≠ channel_name (channel_fields self) ∧
  channel_slug r ≠ channel_slug (channel_fields self).

(** [models.Model.save]: the row is written under the key of the instance,
    or under a new key when it has none. *)
Definition Model_save (self : ChannelInstance) (db : DB)
  : ChannelInstance * DB * outcome unit :=
  if decide (map_Forall (channel_unique self) (channels db)) then
    let pk := default (next_pk (channels db)) (channel_pk self) in
    ({| channel_pk := Some pk; channel_fields := channel_fields self |},
     set_channels (<[pk := channel_fields self]> (channels db)) db,
     Done ())
  else (self, db, Raise IntegrityError).

(** [[
    def save(self, *args, **kwargs):
        self.slug = slugify(self.name)
        super().save( *args, **kwargs )
    ]]
    The instance is returned as the call leaves it, also when it raises. *)
Definition Channel_save (U : unicodedata) (self : ChannelInstance) (db : DB)
  : ChannelInstance * DB * outcome unit :=
  let self := set_slug (slugify U (channel_name (channel_fields self)) false) self in
  Model_save self db.

(** ** MonthlySchedule *)

(** [[
    def get_current_year():
        current_Year = datetime.now().year
        return current_Year
    ]]
    [now] is what [datetime.now()] reads off the clock. *)
Definition get_current_year (now : datetime) : Z :=
  let current_Year := year now in
  current_Year.

(** [MonthlySchedule(month=.., year=.., days=.., user=..)], the year given or
    left to its default. *)
Definition MonthlySchedule_init (now : datetime) (month : Z) (year : option Z)
    (days user : Z) : MonthlySchedule :=
  {| ms_month := month;
     ms_year := match year with Some y => y | None => get_current_year now end;
     ms_days := days;
     ms_user := user |}.

(** An integer column holds a signed integer of 64 bits (the INTEGER of
    SQLite, the database whose collation was taken above): a value outside of
    it raises OverflowError when it is bound to the statement, before any
    constraint is looked at. *)
Definition int64 (z : Z) : bool := (- 2 ^ 63 <=? z) && (z <? 2 ^ 63).

(** [month], [year], [days] are [IntegerField]s, [user] is the key of a
    [User]. *)
Definition MonthlySchedule_storable (row : MonthlySchedule) : bool :=
  int64 (ms_month row) && int64 (ms_year row) && int64 (ms_days row)
  && int64 (ms_user row).

(** The insert of a new row.  [month] is [unique=True], and
    [user = models.ForeignKey(User, on_delete=models.CASCADE)] has to name a
    user that exists: [users] are the keys of the rows of the user table,
    which is not among the tables of the database here. *)
Definition MonthlySchedule_insert (users : gset Z) (row : MonthlySchedule) (db : DB)
  : DB * outcome Z :=
  if MonthlySchedule_storable row then
    if decide (ms_user row ∈ users ∧
               map_Forall (λ _ r, ms_month r ≠ ms_month row) (monthly_schedules db))
    then
      let pk := next_pk (monthly_schedules db) in
      (set_monthly_schedules (<[pk := row]> (monthly_schedules db)) db, Done pk)
    else (db, Raise IntegrityError)
  else (db, Raise OverflowError).

(** [MonthlySchedule.objects.create(...)] *)
Definition MonthlySchedule_create (users : gset Z) (now : datetime) (month : Z)
    (year : option Z) (days user : Z) (db : DB) : DB * outcome Z :=
  MonthlySchedule_insert users (MonthlySchedule_init now month year days user) db.

(** ** Histories *)

(** The writes the model has. *)
Inductive operation :=
  | QuizDelete (pk : Z)
  | QuestionDelete (pk : Z)
  | AnswerDelete (pk : Z)
  | AssignmentDelete (pk : Z)
  | StudentAnswerCreate (sa : StudentAnswer)
  | StudentAnswerDelete (pk : Z)
  | ChannelSave (U : unicodedata) (self : ChannelInstance)
  | MonthlyScheduleCreate (users : gset Z) (now : datetime) (month : Z)
      (year : option Z) (days user : Z).

Definition run (db : DB) (o : operation) : DB :=
  match o with
  | QuizDelete pk => Quiz_delete pk db
  | QuestionDelete pk => Question_delete pk db
  | AnswerDelete pk => Answer_delete pk db
  | AssignmentDelete pk => Assignment_delete pk db
  | StudentAnswerCreate sa => (StudentAnswer_create sa db).1
  | StudentAnswerDelete pk => StudentAnswer_delete pk db
  | ChannelSave U self => (Channel_save U self db).1.2
  | MonthlyScheduleCreate users now month year days user =>
      (MonthlySchedule_create users now month year days user db).1
  end.

Definition run_all (db : DB) (os : list operation) : DB := foldl run db os.

(** Every answer a [StudentAnswer] names is a row of the answer table. *)
Definition student_answers_valid (db : DB) : Prop :=
  map_Forall (λ _ sa, fk_exists (answers db) (sa_answer sa) = true)
             (student_answers db).

(** No two schedules have the same month. *)
Definition months_unique (db : DB) : Prop :=
  ∀ k1 k2 r1 r2, monthly_schedules db !! k1 = Some r1 →
                 monthly_schedules db !! k2 = Some r2 →
                 ms_month r1 = ms_month r2 → k1 = k2.

(** Every stored channel has the slug of its name. *)
Definition slugs_derived (U : unicodedata) (db : DB) : Prop :=
  map_Forall (λ _ r, channel_slug r = slugify U (channel_name r) false)
             (channels db).

(** ** Two sentences of the specification, as it words them *)

(** "Deleting an Assignment does NOT remove existing AssignmentSubmission
    rows referencing it; those rows' assignment reference becomes
    null-equivalent/absent." *)
Definition submissions_outlive_assignment (db : DB) (assignment : Z) : Prop :=
  ∀ k s, assignment_submissions db !! k = Some s →
         sub_assignment s = Some assignment →
         assignment_submissions (Assignment_delete assignment db) !! k
         = Some (fk_set_null AssignmentSubmission_assignment s).

(** The slugs of three saves in a row: as the channel is, once more
    unchanged, and after its name was set to [name']. *)
Definition slugs_save_save_rename_save (U : unicodedata) (self : ChannelInstance)
    (name' : str) (db : DB) : str * str * str :=
  let '(self1, db1, _) := Channel_save U self db in
  let '(self2, db2, _) := Channel_save U self1 db1 in
  let '(self3, db3, _) := Channel_save U (set_name name' self2) db2 in
  (channel_slug (channel_fields self1),
   channel_slug (channel_fields self2),
   channel_slug (channel_fields self3)).

(** "Saving a Channel named "Math Help!" twice (no name change) yields the
    same slug both times; renaming it to "Math Help?" changes the slug on
    next save." *)
Definition rename_changes_slug (U : unicodedata) (self : ChannelInstance) (db : DB) : Prop :=
  let '(slug1, slug2, slug3) :=
    slugs_save_save_rename_save U self (py "Math Help?") db in
  slug1 = slug2 ∧ slug3 ≠ slug2.


(** ** The shape of a slug *)

(** A lower-case letter of Basic Latin, a digit, the underscore or the
    hyphen. *)
Definition slug_char (c : N) : bool :=
  (48 <=? c)%N && (c <=? 57)%N || (97 <=? c)%N && (c <=? 122)%N
  || (c =? underscore)%N || (c =? hyphen)%N.

(** Two hyphens in a row somewhere in the text. *)
Fixpoint double_hyphen (s : str) : bool :=
  match s with
  | c :: s' =>
      match s' with
      | d :: _ => (c =? hyphen)%N && (d =? hyphen)%N || double_hyphen s'
      | [] => false
      end
  | [] => false
  end.

(** The characters [strip('-_')] takes off. *)
Definition edge_char (c : N) : bool := (c =? hyphen)%N || (c =? underscore)%N.

Definition well_formed_slug (s : str) : bool :=
  forallb slug_char s && negb (double_hyphen s)
  && negb (from_option edge_char false (head s))
  && negb (from_option edge_char false (last s)).

(** ** Invariants of the tables *)

(** No two channels have the same name or the same slug. *)
Definition channels_unique (db : DB) : Prop :=
  ∀ k1 k2 r1 r2, channels db !! k1 = Some r1 → channels db !! k2 = Some r2 →
                 channel_name r1 = channel_name r2 ∨
                 channel_slug r1 = channel_slug r2 →
                 k1 = k2.

(** Every foreign key of the tables of questions, answers, taken quizzes,
    student answers, submissions and assigned students that is not null
    names a row that is there. *)
Record references_valid (db : DB) : Prop := {
  question_quiz_valid k q :
    questions db !! k = Some q → is_Some (quizzes db !! question_quiz q);
  answer_question_valid k a :
    answers db !! k = Some a → is_Some (questions db !! answer_question a);
  taken_quiz_valid k t :
    taken_quizzes db !! k = Some t → is_Some (quizzes db !! taken_quiz t);
  sa_answer_valid k sa a :
    student_answers db !! k = Some sa → sa_answer sa = Some a →
    is_Some (answers db !! a);
  sub_assignment_valid k s a :
    assignment_submissions db !! k = Some s → sub_assignment s = Some a →
    is_Some (assignments db !! a);
  student_assignment_valid k sa :
    student_assignments db !! k = Some sa → is_Some (assignments db !! sa.2)
}.

(** ** Subject.get_html_badge *)

Record Subject := {
  subject_name : str;
  subject_color : str
}.

(** [s.replace(old, new)] for an [old] of one character. *)
Definition replace (old : N) (new : str) (s : str) : str :=
  s ≫= λ c, if (c =? old)%N then new else [c].

Definition ampersand : N := 38.
Definition less_than : N := 60.
Definition greater_than : N := 62.
Definition quotation_mark : N := 34.
Definition apostrophe : N := 39.

(** [[
    def escape(s, quote=True):
        s = s.replace('&', '&amp;')   # Must be done first!
        s = s.replace('<', '&lt;')
        s = s.replace('>', '&gt;')
        if quote:
            s = s.replace(quotation mark, '&quot;')
            s = s.replace(apostrophe, '&#x27;')
        return s
    ]]
    of the module [html] of Python, which Django 3.0 and later escape
    with. *)
Definition html_escape (s : str) (quote : bool) : str :=
  let s := replace ampersand (py "&amp;") s in
  let s := replace less_than (py "&lt;") s in
  let s := replace greater_than (py "&gt;") s in
  if quote then
    let s := replace quotation_mark (py "&quot;") s in
    let s := replace apostrophe (py "&#x27;") s in
    s
  else s.

(** A text marked as safe for HTML output. *)
Record SafeString := mark_safe { safe_data : str }.

(** [django.utils.html.escape]: [SafeString(html.escape(str(text)))] *)
Definition escape (text : str) : SafeString := mark_safe (html_escape text true).

(** [[
    def get_html_badge(self):
        name = escape(self.name)
        color = escape(self.color)
        html = '<span class="badge badge-primary" style="background-color: %s">%s</span>' % (color, name)
        return mark_safe(html)
    ]]
    with the template cut at its two [%s]. *)
Definition get_html_badge (self : Subject) : SafeString :=
  let name := escape (subject_name self) in
  let color := escape (subject_color self) in
  let html :=
    py "<span class=" ++ [quotation_mark] ++ py "badge badge-primary"
       ++ [quotation_mark] ++ py " style=" ++ [quotation_mark]
       ++ py "background-color: "
    ++ safe_data color
    ++ [quotation_mark] ++ py ">"
    ++ safe_data name
    ++ py "</span>" in
  mark_safe html.

(** What one character becomes. *)
Definition escape_char (c : N) : str :=
  if (c =? ampersand)%N then py "&amp;"
  else if (c =? less_than)%N then py "&lt;"
  else if (c =? greater_than)%N then py "&gt;"
  else if (c =? quotation_mark)%N then py "&quot;"
  else if (c =? apostrophe)%N then py "&#x27;"
  else [c].

(** The characters with a meaning in HTML. *)
Definition html_special (c : N) : bool :=
  (c =? ampersand)%N || (c =? less_than)%N || (c =? greater_than)%N
  || (c =? quotation_mark)%N || (c =? apostrophe)%N.

Definition count (c : N) (s : str) : nat :=
  length (filter (λ d, d = c) s).

(** A letter of Basic Latin or a digit. *)
Definition ascii_alnum (c : N) : bool :=
  (48 <=? c)%N && (c <=? 57)%N || (65 <=? c)%N && (c <=? 90)%N
  || (97 <=? c)%N && (c <=? 122)%N.

(** ** The users, the channel members and the planner

    The tables of the models the database above leaves out, around it. *)

Record User := {
  user_username : str;
  user_is_student : bool;
  user_is_teacher : bool
}.

Record ChannelMember := {
  member_channel : Z;
  member_user : Z
}.

Record DailySchedule := {
  ds_month : Z;
  ds_day_of_week : str;
  ds_day : Z;
  ds_no_notes : option Z;
  ds_imp : bool
}.

Record Note := {
  note_day : Z;
  note_alert : bool;
  note_note : option str;
  note_at : option time
}.

Record Site := {
  site_db : DB;
  users : gmap Z User;
  channel_members : gmap Z ChannelMember;
  daily_schedules : gmap Z DailySchedule;
  notes : gmap Z Note
}.

Definition empty_site : Site :=
  {| site_db := empty_db; users := ∅; channel_members := ∅;
     daily_schedules := ∅; notes := ∅ |}.

(* channel = models.ForeignKey(Channel, related_name='memberships', on_delete=models.CASCADE) *)
Definition ChannelMember_channel : ForeignKey ChannelMember :=
  {| fk_value m := Some (member_channel m);
     fk_set_null m := m;
     fk_on_delete := CASCADE |}.

(* month = models.ForeignKey(MonthlySchedule, on_delete=models.CASCADE) *)
Definition DailySchedule_month : ForeignKey DailySchedule :=
  {| fk_value d := Some (ds_month d);
     fk_set_null d := d;
     fk_on_delete := CASCADE |}.

(* day = models.ForeignKey(DailySchedule, on_delete=models.CASCADE) *)
Definition Note_day : ForeignKey Note :=
  {| fk_value n := Some (note_day n);
     fk_set_null n := n;
     fk_on_delete := CASCADE |}.

Definition set_site_db (db : DB) (s : Site) : Site :=
  {| site_db := db; users := users s; channel_members := channel_members s;
     daily_schedules := daily_schedules s; notes := notes s |}.

Definition set_daily_schedules (t : gmap Z DailySchedule) (s : Site) : Site :=
  {| site_db := site_db s; users := users s;
     channel_members := channel_members s;
     daily_schedules := t; notes := notes s |}.

Definition set_notes (t : gmap Z Note) (s : Site) : Site :=
  {| site_db := site_db s; users := users s;
     channel_members := channel_members s;
     daily_schedules := daily_schedules s; notes := t |}.

Definition set_channel_members (t : gmap Z ChannelMember) (s : Site) : Site :=
  {| site_db := site_db s; users := users s; channel_members := t;
     daily_schedules := daily_schedules s; notes := notes s |}.

(** Days, and with them their notes. *)
Definition delete_daily_schedules (pks : gset Z) (s : Site) : Site :=
  let ns := collect Note_day pks (notes s) in
  set_daily_schedules (delete_pks pks (daily_schedules s)) (set_notes ns.1 s).

(** Months, and with them their days. *)
Definition delete_monthly_schedules (pks : gset Z) (s : Site) : Site :=
  let ds := collect DailySchedule_month pks (daily_schedules s) in
  let s := delete_daily_schedules ds.2 (set_daily_schedules ds.1 s) in
  set_site_db
    (set_monthly_schedules
       (delete_pks pks (monthly_schedules (site_db s))) (site_db s)) s.

(** Channels, and with them their memberships. *)
Definition delete_channels (pks : gset Z) (s : Site) : Site :=
  let ms := collect ChannelMember_channel pks (channel_members s) in
  set_site_db
    (set_channels (delete_pks pks (channels (site_db s))) (site_db s))
    (set_channel_members ms.1 s).

Definition MonthlySchedule_delete (pk : Z) : Site → Site :=
  delete_monthly_schedules {[ pk ]}.
Definition DailySchedule_delete (pk : Z) : Site → Site :=
  delete_daily_schedules {[ pk ]}.
Definition Channel_delete (pk : Z) : Site → Site := delete_channels {[ pk ]}.

(** [ChannelMember.objects.create(channel=.., user=..)]: the channel and the
    user have to exist, and [unique_together = ('channel', 'user')]: no
    other row may have the two. *)
Definition ChannelMember_create (m : ChannelMember) (s : Site) : Site * outcome Z :=
  if decide (is_Some (channels (site_db s) !! member_channel m) ∧
             is_Some (users s !! member_user m) ∧
             map_Forall (λ _ r, ¬ (member_channel r = member_channel m ∧
                                   member_user r = member_user m))
                        (channel_members s))
  then
    let pk := next_pk (channel_members s) in
    (set_channel_members (<[pk := m]> (channel_members s)) s, Done pk)
  else (s, Raise IntegrityError).

(** ** __str__ *)

(** What evaluating an expression of Python may raise here. *)
Inductive raised :=
  | AttributeError (class attribute : string)
  | DoesNotExist (model : string).

(** The decimal digits of [str(int)]. *)
Fixpoint digits (u : Decimal.uint) : str :=
  match u with
  | Decimal.Nil => []
  | Decimal.D0 u => 48%N :: digits u
  | Decimal.D1 u => 49%N :: digits u
  | Decimal.D2 u => 50%N :: digits u
  | Decimal.D3 u => 51%N :: digits u
  | Decimal.D4 u => 52%N :: digits u
  | Decimal.D5 u => 53%N :: digits u
  | Decimal.D6 u => 54%N :: digits u
  | Decimal.D7 u => 55%N :: digits u
  | Decimal.D8 u => 56%N :: digits u
  | Decimal.D9 u => 57%N :: digits u
  end.

(** [str(z)] for an [int]. *)
Definition str_of_int (z : Z) : str :=
  match Z.to_int z with
  | Decimal.Pos u => digits u
  | Decimal.Neg u => hyphen :: digits u
  end.

(** [instance.user]: the row is fetched, and has to be there. *)
Definition related {R} (model : string) (t : gmap Z R) (pk : Z) : raised + R :=
  match t !! pk with
  | Some r => inr r
  | None => inl (DoesNotExist model)
  end.

(* AbstractUser: return self.get_username() *)
Definition User___str__ (self : User) : str := user_username self.

(** [[
    def __str__(self):
        return f'{self.month}-{self.year}-{self.user.username}'
    ]] *)
Definition MonthlySchedule___str__ (s : Site) (self : MonthlySchedule) : raised + str :=
  match related "User" (users s) (ms_user self) with
  | inl e => inl e
  | inr user =>
      inr (str_of_int (ms_month self) ++ [hyphen] ++ str_of_int (ms_year self)
           ++ [hyphen] ++ user_username user)
  end.

(** [[
    def __str__(self):
        return f'{self.month}-{self.month.year}-{self.day}-{self.day_of_week}'
    ]]
    [self.month] is the MonthlySchedule of the day. *)
Definition DailySchedule___str__ (s : Site) (self : DailySchedule) : raised + str :=
  match related "MonthlySchedule" (monthly_schedules (site_db s)) (ds_month self) with
  | inl e => inl e
  | inr month =>
      match MonthlySchedule___str__ s month with
      | inl e => inl e
      | inr month_str =>
          inr (month_str ++ [hyphen] ++ str_of_int (ms_year month)
               ++ [hyphen] ++ str_of_int (ds_day self)
               ++ [hyphen] ++ ds_day_of_week self)
      end
  end.

(* Student and ChannelMember: return self.user.username *)
Definition Student___str__ (s : Site) (self : Z) : raised + str :=
  match related "User" (users s) self with
  | inl e => inl e
  | inr user => inr (user_username user)
  end.

Definition ChannelMember___str__ (s : Site) (self : ChannelMember) : raised + str :=
  match related "User" (users s) (member_user self) with
  | inl e => inl e
  | inr user => inr (user_username user)
  end.

(** The values the attributes of a Note have. *)
Inductive value :=
  | VInt (z : Z)
  | VStr (s : str)
  | VBool (b : bool)
  | VNone
  | VTime (t : time)
  | VDailySchedule (d : DailySchedule).

(** [getattr(note, name)]: the fields of the model, [id] and [pk], and
    [day_id] beside [day]; a Note has no other data attribute. *)
Definition Note_getattr (s : Site) (pk : Z) (self : Note) (name : string)
  : raised + value :=
  if String.eqb name "id" then inr (VInt pk)
  else if String.eqb name "pk" then inr (VInt pk)
  else if String.eqb name "day_id" then inr (VInt (note_day self))
  else if String.eqb name "day" then
    match related "DailySchedule" (daily_schedules s) (note_day self) with
    | inl e => inl e
    | inr d => inr (VDailySchedule d)
    end
  else if String.eqb name "alert" then inr (VBool (note_alert self))
  else if String.eqb name "note" then
    inr (match note_note self with Some t => VStr t | None => VNone end)
  else if String.eqb name "at" then
    inr (match note_at self with Some t => VTime t | None => VNone end)
  else inl (AttributeError "Note" name).

(** Two digits, as [time.isoformat] writes hours, minutes and seconds. *)
Definition two_digits (z : Z) : str :=
  if z <? 10 then 48%N :: str_of_int z else str_of_int z.

(** [format(v, '')], which is [str(v)]. *)
Definition format_value (s : Site) (v : value) : raised + str :=
  match v with
  | VInt z => inr (str_of_int z)
  | VStr t => inr t
  | VBool b => inr (if b then py "True" else py "False")
  | VNone => inr (py "None")
  | VTime t =>
      inr (two_digits (t_hour t) ++ py ":" ++ two_digits (t_minute t)
           ++ py ":" ++ two_digits (t_second t))
  | VDailySchedule d => DailySchedule___str__ s d
  end.

(** One replacement field [{self.name}] of an f-string of Note. *)
Definition Note_field (s : Site) (pk : Z) (self : Note) (name : string)
  : raised + str :=
  match Note_getattr s pk self name with
  | inl e => inl e
  | inr v => format_value s v
  end.

(** [[
    def __str__(self):
        return f'{self.month}-{self.day}-{self.day_of_week}-{self.id}'
    ]]
    The fields are evaluated from left to right. *)
Definition Note___str__ (s : Site) (pk : Z) (self : Note) : raised + str :=
  match Note_field s pk self "month" with
  | inl e => inl e
  | inr month =>
      match Note_field s pk self "day" with
      | inl e => inl e
      | inr day =>
          match Note_field s pk self "day_of_week" with
          | inl e => inl e
          | inr day_of_week =>
              match Note_field s pk self "id" with
              | inl e => inl e
              | inr id =>
                  inr (month ++ [hyphen] ++ day ++ [hyphen] ++ day_of_week
                       ++ [hyphen] ++ id)
              end
          end
      end
  end.

(** Every foreign key of the members, the schedules and the notes names a
    row that is there. *)
Record site_references_valid (s : Site) : Prop := {
  member_channel_valid k m :
    channel_members s !! k = Some m →
    is_Some (channels (site_db s) !! member_channel m);
  member_user_valid k m :
    channel_members s !! k = Some m → is_Some (users s !! member_user m);
  ms_user_valid k m :
    monthly_schedules (site_db s) !! k = Some m → is_Some (users s !! ms_user m);
  ds_month_valid k d :
    daily_schedules s !! k = Some d →
    is_Some (monthly_schedules (site_db s) !! ds_month d);
  note_day_valid k n :
    notes s !! k = Some n → is_Some (daily_schedules s !! note_day n)
}.

(** No user is twice a member of one channel. *)
Definition members_unique (s : Site) : Prop :=
  ∀ k1 k2 m1 m2, channel_members s !! k1 = Some m1 →
                 channel_members s !! k2 = Some m2 →
                 member_channel m1 = member_channel m2 →
                 member_user m1 = member_user m2 → k1 = k2.

(** The writes of the members and the planner. *)
Inductive site_operation :=
  | MonthlyScheduleDelete (pk : Z)
  | DailyScheduleDelete (pk : Z)
  | ChannelDelete (pk : Z)
  | ChannelMemberCreate (m : ChannelMember).

Definition site_run (s : Site) (o : site_operation) : Site :=
  match o with
  | MonthlyScheduleDelete pk => MonthlySchedule_delete pk s
  | DailyScheduleDelete pk => DailySchedule_delete pk s
  | ChannelDelete pk => Channel_delete pk s
  | ChannelMemberCreate m => (ChannelMember_create m s).1
  end.

Definition site_run_all (s : Site) (os : list site_operation) : Site :=
  foldl site_run s os.

(** ** The order of the channels *)

Definition name_le (x y : Z * Channel) : Prop :=
  str_le (channel_name x.2) (channel_name y.2).

Global Instance name_le_dec : RelDecision name_le.
Proof. intros x y. unfold name_le, str_le. apply _. Defined.

(** [Channel.objects.all()], in the order of [Meta]: [ordering = ['name']]. *)
Definition Channel_objects_all (db : DB) : list (Z * Channel) :=
  merge_sort name_le (map_to_list (channels db)).
(** ** Example data *)

Definition scenario_db : DB :=
  {| quizzes := {[ 1 := {| quiz_owner := 10; quiz_name := py "Basics";
                           quiz_subject := 1; quiz_duration := None |};
                   2 := {| quiz_owner := 10; quiz_name := py "More";
                           quiz_subject := 1; quiz_duration := None |} ]};
     questions :=
       {[ 1 := {| question_quiz := 1; question_text := py "Capital of France?" |};
          2 := {| question_quiz := 1; question_text := py "2+2=?" |};
          3 := {| question_quiz := 1; question_text := py "capital of Peru?" |};
          4 := {| question_quiz := 1; question_text := py "Area of a circle?" |};
          5 := {| question_quiz := 2; question_text := py "3*3=?" |} ]};
     answers :=
       {[ 1 := {| answer_question := 1; answer_text := py "Paris"; answer_is_correct := true |};
          2 := {| answer_question := 2; answer_text := py "4"; answer_is_correct := true |};
          3 := {| answer_question := 2; answer_text := py "5"; answer_is_correct := false |};
          4 := {| answer_question := 3; answer_text := py "Lima"; answer_is_correct := true |};
          5 := {| answer_question := 5; answer_text := py "9"; answer_is_correct := true |} ]};
     assignments :=
       {[ 1 := {| assignment_owner := 10; assignment_name := py "Essay";
                  assignment_subject := 1; assignment_file := None;
                  assignment_uploaded_on := None;
                  assignment_note := Some (py "No Note");
                  assignment_last_date := None |} ]};
     student_assignments := {[ 1 := (20, 1) ]};
     taken_quizzes :=
       {[ 1 := {| taken_student := 20; taken_quiz := 1; taken_score := 50%float;
                  taken_date := {| year := 2024; month := 5; day := 17; hour := 9;
                                   minute := 30; second := 0; microsecond := 0 |} |};
          2 := {| taken_student := 20; taken_quiz := 2; taken_score := 100%float;
                  taken_date := {| year := 2024; month := 5; day := 18; hour := 9;
                                   minute := 30; second := 0; microsecond := 0 |} |} ]};
     student_answers := {[ 1 := {| sa_student := 20; sa_answer := Some 3 |};
                           2 := {| sa_student := 20; sa_answer := None |};
                           3 := {| sa_student := 21; sa_answer := Some 1 |};
                           4 := {| sa_student := 20; sa_answer := Some 5 |} ]};
     assignment_submissions :=
       {[ 7 := {| sub_assignment := Some 1; sub_student := 20; sub_file := None;
                  sub_score := Some 8; sub_date := None;
                  sub_late_submission := false;
                  sub_remarks := Some (py "No Remarks") |};
          8 := {| sub_assignment := None; sub_student := 21; sub_file := None;
                  sub_score := None; sub_date := None;
                  sub_late_submission := true;
                  sub_remarks := Some (py "No Remarks") |} ]};
     channels := ∅;
     monthly_schedules := ∅ |}.

Definition math_help : ChannelInstance :=
  {| channel_pk := None;
     channel_fields := {| channel_name := py "Math Help!";
                          channel_admin := py "kiran";
                          channel_slug := py "my-own-slug";
                          channel_description := [] |} |}.

(** U+6570 U+5B66 *)
Definition shuxue : ChannelInstance :=
  {| channel_pk := None;
     channel_fields := {| channel_name := [25968; 23398]%N;
                          channel_admin := py "kiran";
                          channel_slug := [];
                          channel_description := [] |} |}.

Definition noon : datetime :=
  {| year := 2024; month := 5; day := 17;
     hour := 12; minute := 0; second := 0; microsecond := 0 |}.


(** A subject whose name and colour try to leave their places in the
    markup. *)
Definition script_subject : Subject :=
  {| subject_name := py "<b>R&D</b>";
     subject_color := py "red" ++ [quotation_mark] ++ py " onclick='x()" |}.

Definition may_2024 : MonthlySchedule :=
  {| ms_month := 5; ms_year := 2024; ms_days := 31; ms_user := 10 |}.

Definition may_17 : DailySchedule :=
  {| ds_month := 1; ds_day_of_week := py "Friday"; ds_day := 17;
     ds_no_notes := Some 1; ds_imp := false |}.

Definition scenario_site : Site :=
  {| site_db :=
       set_channels
         {[ 1 := {| channel_name := py "Math Help!"; channel_admin := py "kiran";
                    channel_slug := py "math-help"; channel_description := [] |} ]}
         (set_monthly_schedules
            {[ 1 := may_2024;
               2 := {| ms_month := 6; ms_year := 2024; ms_days := 30; ms_user := 10 |} ]}
            scenario_db);
     users := {[ 10 := {| user_username := py "kiran"; user_is_student := false;
                          user_is_teacher := true |};
                 20 := {| user_username := py "amin"; user_is_student := true;
                          user_is_teacher := false |} ]};
     channel_members := {[ 1 := {| member_channel := 1; member_user := 20 |} ]};
     daily_schedules :=
       {[ 1 := may_17;
          2 := {| ds_month := 2; ds_day_of_week := py "Monday"; ds_day := 3;
                  ds_no_notes := Some 0; ds_imp := true |} ]};
     notes := {[ 1 := {| note_day := 1; note_alert := true;
                         note_note := Some (py "exam"); note_at := None |};
                 2 := {| note_day := 2; note_alert := false;
                         note_note := None; note_at := None |} ]} |}.
(** * Properties *)

(** ** The scenarios of the specification *)

Example scenario_unanswered :
  get_unanswered_questions scenario_db 20 1
  = [ (4, {| question_quiz := 1; question_text := py "Area of a circle?" |});
      (1, {| question_quiz := 1; question_text := py "Capital of France?" |});
      (3, {| question_quiz := 1; question_text := py "capital of Peru?" |}) ].
Proof. vm_compute. reflexivity. Qed.

Example slugify_math_help :
  slugify ucd_excerpt (py "Math Help!") false = py "math-help".
Proof. vm_compute. reflexivity. Qed.

Example slugify_strips :
  slugify ucd_excerpt (py "  --Hello__  World_- ") false = py "hello__-world".
Proof. vm_compute. reflexivity. Qed.


(** ** The query *)

Lemma answer__question_Some db sa q_pk q :
  answer__question db sa = Some (q_pk, q) ↔
  ∃ a_pk a, sa_answer sa = Some a_pk ∧ answers db !! a_pk = Some a ∧
            answer_question a = q_pk ∧ questions db !! q_pk = Some q.
Proof.
  unfold answer__question. split.
  - intros H. destruct (sa_answer sa) as [a_pk|]; simpl in H; [|done].
    destruct (answers db !! a_pk) as [a|] eqn:Ha; simpl in H; [|done].
    destruct (questions db !! answer_question a) as [q'|] eqn:Hq; simpl in H; [|done].
    simplify_eq. eauto 10.
  - intros (a_pk & a & -> & Ha & <- & Hq). simpl. rewrite Ha. simpl. by rewrite Hq.
Qed.

Lemma elem_of_answered_questions db student quiz q_pk :
  q_pk ∈ answered_questions db student quiz ↔
  ∃ q, questions db !! q_pk = Some q ∧ question_quiz q = quiz ∧
       has_answered db student q_pk.
Proof.
  unfold answered_questions. rewrite list_elem_of_omap. split.
  - intros ([k sa] & Hin & Hf). apply elem_of_map_to_list in Hin. simpl in Hf.
    case_bool_decide; [|done].
    destruct (answer__question db sa) as [[q_pk' q]|] eqn:E; simpl in Hf; [|done].
    case_bool_decide; [|done]. simplify_eq.
    apply answer__question_Some in E as (a_pk & a & ? & ? & ? & ?).
    exists q. split_and!; [done..|]. by exists k, sa, a_pk, a.
  - intros (q & Hq & Hquiz & k & sa & a_pk & a & Hsa & Hs & Ha & Hans & Hpk).
    exists (k, sa). split; [by apply elem_of_map_to_list|]. simpl.
    rewrite bool_decide_eq_true_2 by done.
    assert (answer__question db sa = Some (q_pk, q)) as ->.
    { apply answer__question_Some. eauto 10. }
    simpl. by rewrite bool_decide_eq_true_2.
Qed.

Lemma elem_of_quiz_questions db quiz pk q :
  (pk, q) ∈ quiz_questions db quiz ↔
  questions db !! pk = Some q ∧ question_quiz q = quiz.
Proof.
  unfold quiz_questions. rewrite list_elem_of_filter, elem_of_map_to_list. simpl. tauto.
Qed.

Lemma elem_of_order_by_text rows x : x ∈ order_by_text rows ↔ x ∈ rows.
Proof. unfold order_by_text. by rewrite merge_sort_Permutation. Qed.

Lemma elem_of_get_unanswered_questions db student quiz pk q :
  (pk, q) ∈ get_unanswered_questions db student quiz ↔
  questions db !! pk = Some q ∧ question_quiz q = quiz ∧
  ¬ has_answered db student pk.
Proof.
  unfold get_unanswered_questions, exclude_pk_in.
  rewrite elem_of_order_by_text, list_elem_of_filter, elem_of_quiz_questions.
  rewrite elem_of_answered_questions. simpl. split.
  - intros (Hn & Hq & Hquiz). split_and!; [done..|]. intros Ha. apply Hn. eauto.
  - intros (Hq & Hquiz & Hn). split_and!; [|done..]. by intros (? & ? & ? & ?).
Qed.

Lemma NoDup_get_unanswered_questions db student quiz :
  NoDup (get_unanswered_questions db student quiz).
Proof.
  unfold get_unanswered_questions, order_by_text, exclude_pk_in, quiz_questions.
  rewrite merge_sort_Permutation.
  do 2 apply NoDup_filter. apply NoDup_map_to_list.
Qed.

Lemma filter_all {A} (P : A → Prop) `{∀ x, Decision (P x)} (l : list A) :
  (∀ x, x ∈ l → P x) → filter P l = l.
Proof.
  induction l as [|x l IH]; intros HP; [done|].
  rewrite filter_cons_True by (apply HP; left).
  f_equal. apply IH. intros y Hy. apply HP. by right.
Qed.

Lemma filter_none {A} (P : A → Prop) `{∀ x, Decision (P x)} (l : list A) :
  (∀ x, x ∈ l → ¬ P x) → filter P l = [].
Proof.
  induction l as [|x l IH]; intros HP; [done|].
  rewrite filter_cons_False by (apply HP; left).
  apply IH. intros y Hy. apply HP. by right.
Qed.

(** C1. The query returns questions of the quiz only, each once, and a
    question of the quiz is left out exactly when the student has a recorded
    answer to it, whatever the correctness of that answer; with no question
    of the quiz answered it returns all of them (in text order), with all of
    them answered the empty sequence. *)
Theorem get_unanswered_questions_complement (db : DB) (student quiz : Z) :
  (∀ pk q, (pk, q) ∈ get_unanswered_questions db student quiz →
           questions db !! pk = Some q ∧ question_quiz q = quiz) ∧
  (∀ pk q, questions db !! pk = Some q → question_quiz q = quiz →
           ((pk, q) ∉ get_unanswered_questions db student quiz ↔
            has_answered db student pk)) ∧
  NoDup (get_unanswered_questions db student quiz) ∧
  ((∀ pk q, questions db !! pk = Some q → question_quiz q = quiz →
            ¬ has_answered db student pk) →
   get_unanswered_questions db student quiz
   = order_by_text (quiz_questions db quiz)) ∧
  ((∀ pk q, questions db !! pk = Some q → question_quiz q = quiz →
            has_answered db student pk) →
   get_unanswered_questions db student quiz = []).
Proof.
  split_and!.
  - intros pk q H. apply elem_of_get_unanswered_questions in H. tauto.
  - intros pk q Hq Hquiz. rewrite elem_of_get_unanswered_questions. split.
    + intros Hn. destruct (decide (pk ∈ answered_questions db student quiz)) as [Hin|Hin].
      * apply elem_of_answered_questions in Hin as (? & ? & ? & ?). done.
      * exfalso. apply Hn. split_and!; [done..|]. intros Ha. apply Hin.
        apply elem_of_answered_questions. eauto.
    + tauto.
  - apply NoDup_get_unanswered_questions.
  - intros Hnone. unfold get_unanswered_questions, exclude_pk_in. f_equal.
    apply filter_all. intros [pk q] Hin. simpl.
    apply elem_of_quiz_questions in Hin as [Hq Hquiz].
    rewrite elem_of_answered_questions. intros (? & ? & ? & ?). by eapply Hnone.
  - intros Hall. unfold get_unanswered_questions, exclude_pk_in.
    rewrite filter_none; [done|]. intros [pk q] Hin. simpl.
    apply elem_of_quiz_questions in Hin as [Hq Hquiz].
    intros Hn. apply Hn. apply elem_of_answered_questions. eauto.
Qed.

(** In the example student 20 has answered question 2 of quiz 1 (wrongly)
    and the one question of quiz 2; student 22 has answered nothing. *)
Lemma get_unanswered_questions_complement_witness :
  ((2, {| question_quiz := 1; question_text := py "2+2=?" |})
     ∉ get_unanswered_questions scenario_db 20 1 ↔
   has_answered scenario_db 20 2) ∧
  get_unanswered_questions scenario_db 22 1
  = order_by_text (quiz_questions scenario_db 1) ∧
  get_unanswered_questions scenario_db 20 2 = [].
Proof.
  destruct (get_unanswered_questions_complement scenario_db 20 1)
    as (_ & Hcompl & _).
  destruct (get_unanswered_questions_complement scenario_db 22 1)
    as (_ & _ & _ & Hnone & _).
  destruct (get_unanswered_questions_complement scenario_db 20 2)
    as (_ & _ & _ & _ & Hall).
  split_and!.
  - apply Hcompl; reflexivity.
  - apply Hnone. intros pk q _ _ (k & sa & _ & _ & Hsa & Hst & _).
    assert (map_Forall (λ _ sa, sa_student sa ≠ 22) (student_answers scenario_db))
      as Hno by (apply (bool_decide_unpack _); vm_compute; exact I).
    by apply (Hno k sa Hsa).
  - apply Hall. intros pk q Hq Hquiz.
    assert (map_Forall (λ pk q, question_quiz q = 2 →
                                pk ∈ answered_questions scenario_db 20 2)
                       (questions scenario_db))
      as Hyes by (apply (bool_decide_unpack _); vm_compute; exact I).
    apply (Hyes pk q Hq) in Hquiz.
    by apply elem_of_answered_questions in Hquiz as (? & _ & _ & ?).
Defined.


(** ** The collation *)

Lemma str_leb_total s t : str_leb s t = true ∨ str_leb t s = true.
Proof.
  revert t. induction s as [|c s IH]; intros [|d t]; simpl; auto.
  destruct (N.ltb_spec c d), (N.ltb_spec d c); auto; try lia.
  destruct (N.eqb_spec c d), (N.eqb_spec d c); auto; lia.
Qed.

Lemma str_leb_trans s t u :
  str_leb s t = true → str_leb t u = true → str_leb s u = true.
Proof.
  revert t u. induction s as [|c s IH]; intros [|d t] [|e u]; simpl; auto; try done.
  destruct (N.ltb_spec c d), (N.ltb_spec d e), (N.ltb_spec c e); auto; try lia;
    destruct (N.eqb_spec c d), (N.eqb_spec d e), (N.eqb_spec c e);
    auto; try lia; try done.
  apply IH.
Qed.

Lemma str_leb_antisym s t :
  str_leb s t = true → str_leb t s = true → s = t.
Proof.
  revert t. induction s as [|c s IH]; intros [|d t]; simpl; auto; try done.
  intros Hst Hts.
  destruct (N.ltb_spec c d), (N.ltb_spec d c); try lia;
    destruct (N.eqb_spec c d), (N.eqb_spec d c); try lia; try done.
  subst. f_equal. by apply IH.
Qed.

(** [str_le] is the lexicographic order on code points: a text comes before
    those it is a prefix of, and before those that have the larger code point
    where the two first differ. *)
Lemma str_le_lexicographic s t :
  str_le s t ↔
  s `prefix_of` t ∨
  ∃ p c d s' t', s = p ++ c :: s' ∧ t = p ++ d :: t' ∧ (c < d)%N.
Proof.
  unfold str_le. revert t. induction s as [|c s IH]; intros t; simpl.
  - split; [intros _; left; apply prefix_nil | by destruct t].
  - destruct t as [|d t].
    + split; [done|]. intros [Hp | (p & ? & ? & ? & ? & _ & Ht & _)].
      * by apply prefix_nil_not in Hp.
      * by destruct p.
    + destruct (N.ltb_spec c d) as [Hlt|Hge].
      { split; [|done]. intros _. right. by exists [], c, d, s, t. }
      destruct (N.eqb_spec c d) as [->|Hne].
      * rewrite IH. split.
        -- intros [Hp | (p & c' & d' & s' & t' & -> & -> & Hlt)].
           ++ left. by apply prefix_cons.
           ++ right. by exists (d :: p), c', d', s', t'.
        -- intros [Hp | (p & c' & d' & s' & t' & Hs & Ht & Hlt)].
           ++ left. by apply prefix_cons_inv_2 in Hp.
           ++ destruct p as [|x p]; simplify_eq/=; try lia.
              right. by exists p, c', d', s', t'.
      * split; [done|]. intros [Hp | (p & c' & d' & s' & t' & Hs & Ht & Hlt)].
        -- by apply prefix_cons_inv_1 in Hp.
        -- destruct p as [|x p]; simplify_eq/=; lia || done.
Qed.

Global Instance text_le_total : Total text_le.
Proof. intros x y. apply str_leb_total. Qed.

Global Instance text_le_trans : Transitive text_le.
Proof. intros x y z. apply str_leb_trans. Qed.

(** C4. The sequence the query returns is in ascending order of the texts
    of its questions, whatever their keys: each question comes before all
    those after it in the lexicographic order on code points, in which an
    upper-case letter is smaller than every lower-case one. *)
Theorem get_unanswered_questions_sorted (db : DB) (student quiz : Z) :
  StronglySorted (λ x y, str_le (question_text x.2) (question_text y.2))
    (get_unanswered_questions db student quiz) ∧
  (∀ s t, str_le s t ↔
     s `prefix_of` t ∨
     ∃ p c d s' t', s = p ++ c :: s' ∧ t = p ++ d :: t' ∧ (c < d)%N) ∧
  (str_le (py "Z") (py "a") ∧ ¬ str_le (py "a") (py "Z")).
Proof.
  split_and!.
  - unfold get_unanswered_questions, order_by_text.
    apply (StronglySorted_merge_sort text_le).
  - apply str_le_lexicographic.
  - done.
  - done.
Qed.

(** ** Keys and tables *)

Lemma next_pk_above {R} (t : gmap Z R) k : is_Some (t !! k) → k < next_pk t.
Proof.
  unfold next_pk.
  enough (∀ k, is_Some (t !! k) → k ≤ map_fold (λ k _ m, Z.max k m) 0 t) as H.
  { intros Hk. apply H in Hk. lia. }
  clear k.
  apply (map_fold_weak_ind (λ b (m : gmap Z R), ∀ k, is_Some (m !! k) → k ≤ b)).
  - intros k [? Hk]. by rewrite lookup_empty in Hk.
  - intros i x m r Hi IH k Hk. destruct (decide (i = k)) as [->|Hne]; [lia|].
    rewrite lookup_insert_ne in Hk by done. apply IH in Hk. lia.
Qed.

Lemma next_pk_fresh {R} (t : gmap Z R) : t !! next_pk t = None.
Proof.
  destruct (t !! next_pk t) eqn:E; [|done].
  assert (next_pk t < next_pk t) by (apply next_pk_above; eauto). lia.
Qed.

Lemma lookup_delete_pks {R} (pks : gset Z) (t : gmap Z R) k :
  delete_pks pks t !! k = if decide (k ∈ pks) then None else t !! k.
Proof.
  unfold delete_pks. destruct (decide (k ∈ pks)) as [Hin|Hin].
  - apply map_lookup_filter_None. right. intros x _ Hn. simpl in Hn. done.
  - destruct (t !! k) as [x|] eqn:E.
    + apply map_lookup_filter_Some. done.
    + apply map_lookup_filter_None. by left.
Qed.

Lemma lookup_collect_cascade {R} (f : ForeignKey R) pks (t : gmap Z R) k r :
  fk_on_delete f = CASCADE →
  (collect f pks t).1 !! k = Some r ↔ t !! k = Some r ∧ ¬ references f pks r.
Proof.
  intros Hf. unfold collect. rewrite Hf. simpl.
  by rewrite map_lookup_filter_Some.
Qed.

Lemma elem_of_collect_cascade {R} (f : ForeignKey R) pks (t : gmap Z R) k :
  fk_on_delete f = CASCADE →
  k ∈ (collect f pks t).2 ↔ ∃ r, t !! k = Some r ∧ references f pks r.
Proof.
  intros Hf. unfold collect. rewrite Hf. simpl.
  rewrite elem_of_dom. unfold is_Some.
  by setoid_rewrite map_lookup_filter_Some.
Qed.

(** ** What a delete leaves in each table *)

Ltac keys :=
  unfold references;
  cbn [fk_value fk_set_null fk_on_delete Question_quiz Answer_question
       TakenQuiz_quiz StudentAnswer_answer AssignmentSubmission_assignment
       Student_assignments_assignment snd fst].

Ltac fields :=
  cbn [quizzes questions answers assignments student_assignments taken_quizzes
       student_answers assignment_submissions channels monthly_schedules
       set_questions set_answers set_student_answers set_channels
       set_monthly_schedules].

Lemma lookup_answers_delete_answers pks db k :
  answers (delete_answers pks db) !! k
  = if decide (k ∈ pks) then None else answers db !! k.
Proof. unfold delete_answers. fields. apply lookup_delete_pks. Qed.

Lemma lookup_student_answers_delete_answers pks db k sa :
  student_answers (delete_answers pks db) !! k = Some sa ↔
  student_answers db !! k = Some sa ∧ ∀ a, sa_answer sa = Some a → a ∉ pks.
Proof.
  unfold delete_answers. fields. rewrite lookup_collect_cascade by done.
  keys. split.
  - intros [Hsa Hn]. split; [done|]. intros a Ha. by rewrite Ha in Hn.
  - intros [Hsa Hn]. split; [done|].
    destruct (sa_answer sa) as [a|]; [by apply Hn | by intros []].
Qed.

Lemma questions_delete_answers pks db :
  questions (delete_answers pks db) = questions db.
Proof. done. Qed.

Lemma lookup_questions_delete_questions pks db k :
  questions (delete_questions pks db) !! k
  = if decide (k ∈ pks) then None else questions db !! k.
Proof. unfold delete_questions, delete_answers. fields. apply lookup_delete_pks. Qed.

Lemma lookup_answers_delete_questions pks db k a :
  answers (delete_questions pks db) !! k = Some a ↔
  answers db !! k = Some a ∧ answer_question a ∉ pks.
Proof.
  unfold delete_questions, delete_answers. fields. rewrite lookup_delete_pks.
  case_decide as Hk.
  - apply elem_of_collect_cascade in Hk as (r & Hr & Href); [|done].
    unfold references in Href; cbn [fk_value Question_quiz Answer_question TakenQuiz_quiz StudentAnswer_answer] in Href.
    split; [done|]. intros [? ?]. by simplify_eq.
  - rewrite lookup_collect_cascade by done. keys. done.
Qed.

Lemma lookup_student_answers_delete_questions pks db k sa :
  student_answers (delete_questions pks db) !! k = Some sa ↔
  student_answers db !! k = Some sa ∧
  ∀ a_pk a, sa_answer sa = Some a_pk → answers db !! a_pk = Some a →
            answer_question a ∉ pks.
Proof.
  unfold delete_questions, delete_answers. fields. rewrite lookup_collect_cascade by done.
  keys. split.
  - intros [Hsa Hn]. split; [done|]. intros a_pk a Ha Hans Hin.
    rewrite Ha in Hn. apply Hn. apply elem_of_collect_cascade; [done|].
    exists a. split; [done|]. keys. done.
  - intros [Hsa Hn]. split; [done|]. destruct (sa_answer sa) as [a_pk|] eqn:Hsome; [|by intros []].
    intros Hin. apply elem_of_collect_cascade in Hin as (a & Ha & Href); [|done].
    unfold references in Href; cbn [fk_value Question_quiz Answer_question TakenQuiz_quiz StudentAnswer_answer] in Href. by eapply Hn.
Qed.

Lemma lookup_quizzes_delete_quizzes pks db k :
  quizzes (delete_quizzes pks db) !! k
  = if decide (k ∈ pks) then None else quizzes db !! k.
Proof. unfold delete_quizzes. fields. apply lookup_delete_pks. Qed.

Lemma lookup_questions_delete_quizzes pks db k q :
  questions (delete_quizzes pks db) !! k = Some q ↔
  questions db !! k = Some q ∧ question_quiz q ∉ pks.
Proof.
  unfold delete_quizzes. fields. rewrite lookup_questions_delete_questions.
  fields.
  case_decide as Hk.
  - apply elem_of_collect_cascade in Hk as (r & Hr & Href); [|done].
    unfold references in Href; cbn [fk_value Question_quiz Answer_question TakenQuiz_quiz StudentAnswer_answer] in Href.
    split; [done|]. intros [? ?]. by simplify_eq.
  - rewrite lookup_collect_cascade by done. keys. done.
Qed.

Lemma lookup_answers_delete_quizzes pks db k a :
  answers (delete_quizzes pks db) !! k = Some a ↔
  answers db !! k = Some a ∧
  ∀ q, questions db !! answer_question a = Some q → question_quiz q ∉ pks.
Proof.
  unfold delete_quizzes. fields. rewrite lookup_answers_delete_questions.
  fields. split.
  - intros [Ha Hn]. split; [done|]. intros q Hq Hin. apply Hn.
    apply elem_of_collect_cascade; [done|]. exists q. split; [done|].
    keys. done.
  - intros [Ha Hn]. split; [done|]. intros Hin.
    apply elem_of_collect_cascade in Hin as (q & Hq & Href); [|done].
    unfold references in Href; cbn [fk_value Question_quiz Answer_question TakenQuiz_quiz StudentAnswer_answer] in Href. by eapply Hn.
Qed.

Lemma lookup_student_answers_delete_quizzes pks db k sa :
  student_answers (delete_quizzes pks db) !! k = Some sa ↔
  student_answers db !! k = Some sa ∧
  ∀ a_pk a q, sa_answer sa = Some a_pk → answers db !! a_pk = Some a →
              questions db !! answer_question a = Some q →
              question_quiz q ∉ pks.
Proof.
  unfold delete_quizzes. fields.
  rewrite lookup_student_answers_delete_questions.
  fields. split.
  - intros [Hsa Hn]. split; [done|]. intros a_pk a q Ha Hans Hq Hin.
    eapply Hn; [done..|]. apply elem_of_collect_cascade; [done|].
    exists q. split; [done|]. keys. done.
  - intros [Hsa Hn]. split; [done|]. intros a_pk a Ha Hans Hin.
    apply elem_of_collect_cascade in Hin as (q & Hq & Href); [|done].
    unfold references in Href; cbn [fk_value Question_quiz Answer_question TakenQuiz_quiz StudentAnswer_answer] in Href. by eapply Hn.
Qed.

Lemma lookup_taken_quizzes_delete_quizzes pks db k t :
  taken_quizzes (delete_quizzes pks db) !! k = Some t ↔
  taken_quizzes db !! k = Some t ∧ taken_quiz t ∉ pks.
Proof.
  unfold delete_quizzes. fields.
  rewrite lookup_collect_cascade by done. keys. done.
Qed.

(** C6. After a quiz is deleted, the quiz is gone, and so are each of its
    questions, each answer of one of these questions and each TakenQuiz row
    of the quiz: no row left in these tables belongs to the quiz.  The rows
    that are left are rows of before, unchanged, and the rows of other
    quizzes are all left. *)
Theorem Quiz_delete_cascades (db : DB) (quiz : Z) :
  let db' := Quiz_delete quiz db in
  quizzes db' !! quiz = None ∧
  (∀ k q, questions db !! k = Some q → question_quiz q = quiz →
          questions db' !! k = None) ∧
  (∀ k a q, answers db !! k = Some a →
            questions db !! answer_question a = Some q → question_quiz q = quiz →
            answers db' !! k = None) ∧
  (∀ k t, taken_quizzes db !! k = Some t → taken_quiz t = quiz →
          taken_quizzes db' !! k = None) ∧
  (∀ k q, questions db' !! k = Some q ↔
          questions db !! k = Some q ∧ question_quiz q ≠ quiz) ∧
  (∀ k a, answers db' !! k = Some a ↔
          answers db !! k = Some a ∧
          ∀ q, questions db !! answer_question a = Some q → question_quiz q ≠ quiz) ∧
  (∀ k t, taken_quizzes db' !! k = Some t ↔
          taken_quizzes db !! k = Some t ∧ taken_quiz t ≠ quiz).
Proof.
  intros db'. subst db'. unfold Quiz_delete.
  assert (∀ x : Z, x ∉ ({[quiz]} : gset Z) ↔ x ≠ quiz) as Hs by set_solver.
  split_and!.
  - rewrite lookup_quizzes_delete_quizzes. rewrite decide_True; [done|set_solver].
  - intros k q Hq Hquiz.
    destruct (questions (delete_quizzes {[quiz]} db) !! k) as [q'|] eqn:E; [|done].
    apply lookup_questions_delete_quizzes in E as [E Hn]. apply Hs in Hn.
    congruence.
  - intros k a q Ha Hq Hquiz.
    destruct (answers (delete_quizzes {[quiz]} db) !! k) as [a'|] eqn:E; [|done].
    apply lookup_answers_delete_quizzes in E as [E Hn]. simplify_eq.
    specialize (Hn _ Hq). by apply Hs in Hn.
  - intros k t Ht Hquiz.
    destruct (taken_quizzes (delete_quizzes {[quiz]} db) !! k) as [t'|] eqn:E; [|done].
    apply lookup_taken_quizzes_delete_quizzes in E as [E Hn]. apply Hs in Hn.
    congruence.
  - intros k q. rewrite lookup_questions_delete_quizzes. by rewrite Hs.
  - intros k a. rewrite lookup_answers_delete_quizzes. by setoid_rewrite Hs.
  - intros k t. rewrite lookup_taken_quizzes_delete_quizzes. by rewrite Hs.
Qed.

Lemma Quiz_delete_cascades_witness :
  quizzes (Quiz_delete 1 scenario_db) !! 1 = None ∧
  questions (Quiz_delete 1 scenario_db) !! 2 = None ∧
  answers (Quiz_delete 1 scenario_db) !! 3 = None ∧
  taken_quizzes (Quiz_delete 1 scenario_db) !! 1 = None ∧
  questions (Quiz_delete 1 scenario_db) !! 5
  = Some {| question_quiz := 2; question_text := py "3*3=?" |}.
Proof.
  destruct (Quiz_delete_cascades scenario_db 1)
    as (Hquiz & Hquestions & Hanswers & Htaken & Hleft & _).
  split_and!.
  - exact Hquiz.
  - eapply Hquestions; reflexivity.
  - eapply Hanswers; reflexivity.
  - eapply Htaken; reflexivity.
  - apply Hleft. split; [reflexivity|done].
Defined.


Lemma lookup_student_answers_delete k db i :
  student_answers (StudentAnswer_delete k db) !! i
  = if decide (i = k) then None else student_answers db !! i.
Proof.
  unfold StudentAnswer_delete. fields. rewrite lookup_delete_pks.
  destruct (decide (i = k)) as [->|Hne].
  - rewrite decide_True; [done|set_solver].
  - rewrite decide_False; [done|set_solver].
Qed.

(** ** Dangling answers *)

Lemma student_answers_valid_spec db :
  student_answers_valid db ↔
  ∀ k sa a, student_answers db !! k = Some sa → sa_answer sa = Some a →
            is_Some (answers db !! a).
Proof.
  unfold student_answers_valid, map_Forall. split.
  - intros H k sa a Hsa Ha. specialize (H k sa Hsa). rewrite Ha in H.
    simpl in H. by apply bool_decide_eq_true in H.
  - intros H k sa Hsa. destruct (sa_answer sa) as [a|] eqn:Ha; [|done].
    simpl. apply bool_decide_eq_true. eauto.
Qed.

Lemma delete_quizzes_valid pks db :
  student_answers_valid db → student_answers_valid (delete_quizzes pks db).
Proof.
  rewrite !student_answers_valid_spec. intros Hv k sa a Hsa Ha.
  apply lookup_student_answers_delete_quizzes in Hsa as [Hsa Hn].
  destruct (Hv k sa a Hsa Ha) as [ans Hans]. exists ans.
  apply lookup_answers_delete_quizzes. split; [done|]. intros q Hq.
  by eapply Hn.
Qed.

Lemma delete_questions_valid pks db :
  student_answers_valid db → student_answers_valid (delete_questions pks db).
Proof.
  rewrite !student_answers_valid_spec. intros Hv k sa a Hsa Ha.
  apply lookup_student_answers_delete_questions in Hsa as [Hsa Hn].
  destruct (Hv k sa a Hsa Ha) as [ans Hans]. exists ans.
  apply lookup_answers_delete_questions. split; [done|]. by eapply Hn.
Qed.

Lemma delete_answers_valid pks db :
  student_answers_valid db → student_answers_valid (delete_answers pks db).
Proof.
  rewrite !student_answers_valid_spec. intros Hv k sa a Hsa Ha.
  apply lookup_student_answers_delete_answers in Hsa as [Hsa Hn].
  rewrite lookup_answers_delete_answers.
  rewrite decide_False by by apply Hn. by eapply Hv.
Qed.

Lemma StudentAnswer_create_valid sa db :
  student_answers_valid db → student_answers_valid (StudentAnswer_create sa db).1.
Proof.
  intros Hv. unfold StudentAnswer_create.
  destruct (fk_exists (answers db) (sa_answer sa)) eqn:Hfk; [|done].
  cbn [fst]. unfold student_answers_valid. fields.
  apply map_Forall_insert_2; done.
Qed.

Lemma StudentAnswer_delete_valid k db :
  student_answers_valid db → student_answers_valid (StudentAnswer_delete k db).
Proof.
  rewrite !student_answers_valid_spec. intros Hv i sa a Hsa Ha.
  rewrite lookup_student_answers_delete in Hsa. case_decide; [done|].
  by eapply Hv.
Qed.

Lemma run_valid db o :
  student_answers_valid db → student_answers_valid (run db o).
Proof.
  intros Hv. destruct o; cbn [run].
  - by apply delete_quizzes_valid.
  - by apply delete_questions_valid.
  - by apply delete_answers_valid.
  - done.
  - by apply StudentAnswer_create_valid.
  - by apply StudentAnswer_delete_valid.
  - unfold Channel_save, Model_save. by case_decide.
  - unfold MonthlySchedule_create, MonthlySchedule_insert.
    destruct (MonthlySchedule_storable _); [|done]. by case_decide.
Qed.

Lemma run_all_valid db os :
  student_answers_valid db → student_answers_valid (run_all db os).
Proof.
  unfold run_all. revert db. induction os as [|o os IH]; intros db Hv; [done|].
  simpl. apply IH. by apply run_valid.
Qed.

(** C10. Deleting an answer deletes the StudentAnswer rows that name it and
    leaves the others as they are, none with its answer set to null; no
    history of writes leads from a database without dangling answers to one
    with; and a question of which the student had recorded no other answer
    than the deleted one is among the unanswered ones afterwards. *)
Theorem Answer_delete_cascades (db : DB) (answer : Z) :
  let db' := Answer_delete answer db in
  answers db' !! answer = None ∧
  (∀ k sa, student_answers db !! k = Some sa → sa_answer sa = Some answer →
           student_answers db' !! k = None) ∧
  (∀ k sa, student_answers db' !! k = Some sa ↔
           student_answers db !! k = Some sa ∧ sa_answer sa ≠ Some answer) ∧
  (∀ os, student_answers_valid db →
         ∀ k sa a, student_answers (run_all db os) !! k = Some sa →
                   sa_answer sa = Some a →
                   is_Some (answers (run_all db os) !! a)) ∧
  (∀ student quiz q_pk q,
     questions db !! q_pk = Some q → question_quiz q = quiz →
     (∀ k sa a_pk a, student_answers db !! k = Some sa →
                     sa_student sa = student → sa_answer sa = Some a_pk →
                     answers db !! a_pk = Some a → answer_question a = q_pk →
                     a_pk = answer) →
     (q_pk, q) ∈ get_unanswered_questions db' student quiz).
Proof.
  intros db'. subst db'. unfold Answer_delete.
  assert (∀ sa, (∀ a, sa_answer sa = Some a → a ∉ ({[answer]} : gset Z))
                ↔ sa_answer sa ≠ Some answer) as Hs.
  { intros sa. split.
    - intros H Ha. apply (H _ Ha). set_solver.
    - intros H a Ha Hin. apply H. rewrite Ha. f_equal. set_solver. }
  split_and!.
  - rewrite lookup_answers_delete_answers. rewrite decide_True; [done|set_solver].
  - intros k sa Hsa Ha.
    destruct (student_answers (delete_answers {[answer]} db) !! k) as [sa'|] eqn:E; [|done].
    apply lookup_student_answers_delete_answers in E as [E Hn].
    apply Hs in Hn. congruence.
  - intros k sa. rewrite lookup_student_answers_delete_answers. by rewrite Hs.
  - intros os Hv. apply student_answers_valid_spec. by apply run_all_valid.
  - intros student quiz q_pk q Hq Hquiz Honly.
    apply elem_of_get_unanswered_questions. split_and!; [done..|].
    intros (k & sa & a_pk & a & Hsa & Hst & Ha & Hans & Hpk).
    apply lookup_student_answers_delete_answers in Hsa as [Hsa Hn].
    rewrite lookup_answers_delete_answers in Hans.
    case_decide as Hin; [done|]. apply Hin.
    rewrite (Honly k sa a_pk a); [set_solver|done..].
Qed.

(** Student 20 has one recorded answer to question 2, answer 3. *)
Lemma Answer_delete_cascades_witness :
  student_answers_valid scenario_db ∧
  ((2, {| question_quiz := 1; question_text := py "2+2=?" |})
     ∉ get_unanswered_questions scenario_db 20 1) ∧
  student_answers (Answer_delete 3 scenario_db) !! 1 = None ∧
  student_answers (Answer_delete 3 scenario_db) !! 2
  = Some {| sa_student := 20; sa_answer := None |} ∧
  ((2, {| question_quiz := 1; question_text := py "2+2=?" |})
     ∈ get_unanswered_questions (Answer_delete 3 scenario_db) 20 1).
Proof.
  assert (student_answers_valid scenario_db) as Hv
    by (apply (bool_decide_unpack _); vm_compute; exact I).
  destruct (Answer_delete_cascades scenario_db 3)
    as (_ & Hgone & Hleft & _ & Hback).
  split_and!.
  - exact Hv.
  - apply (bool_decide_unpack _). vm_compute. exact I.
  - eapply Hgone; reflexivity.
  - apply Hleft. split; [reflexivity|done].
  - apply Hback; [reflexivity..|].
    intros k sa a_pk a Hsa Hst Ha Hans Hq.
    assert (map_Forall
              (λ _ sa,
                 bool_decide (sa_student sa = 20) &&
                 match sa_answer sa ≫= (answers scenario_db !!.) with
                 | Some a => bool_decide (answer_question a = 2) &&
                             negb (bool_decide (sa_answer sa = Some 3))
                 | None => false
                 end = false)
              (student_answers scenario_db)) as Honly
      by (apply (bool_decide_unpack _); vm_compute; exact I).
    specialize (Honly k sa Hsa). cbv beta in Honly.
    rewrite Ha in Honly. cbn [mbind option_bind] in Honly.
    rewrite Hans in Honly. rewrite !bool_decide_eq_true_2 in Honly by done.
    destruct (decide (a_pk = 3)) as [|Hne]; [done|].
    rewrite bool_decide_eq_false_2 in Honly by congruence. done.
Defined.


(** ** Rows without an answer *)





(** ** Assignments and their submissions *)

Lemma lookup_submissions_delete_assignments pks db k s :
  assignment_submissions (delete_assignments pks db) !! k = Some s ↔
  assignment_submissions db !! k = Some s ∧
  ∀ a, sub_assignment s = Some a → a ∉ pks.
Proof.
  unfold delete_assignments. fields. rewrite lookup_collect_cascade by done.
  keys. split.
  - intros [Hs Hn]. split; [done|]. intros a Ha. by rewrite Ha in Hn.
  - intros [Hs Hn]. split; [done|].
    destruct (sub_assignment s) as [a|]; [by apply Hn | by intros []].
Qed.

(** C2, as the code has it.  Deleting an assignment deletes the submissions
    that refer to it; the submissions left are those of before that refer to
    another assignment or to none, unchanged. *)
Theorem Assignment_delete_cascades (db : DB) (assignment : Z) :
  let db' := Assignment_delete assignment db in
  assignments db' !! assignment = None ∧
  (∀ k s, assignment_submissions db !! k = Some s →
          sub_assignment s = Some assignment →
          assignment_submissions db' !! k = None) ∧
  (∀ k s, assignment_submissions db' !! k = Some s ↔
          assignment_submissions db !! k = Some s ∧
          sub_assignment s ≠ Some assignment).
Proof.
  intros db'. subst db'. unfold Assignment_delete.
  assert (∀ s, (∀ a, sub_assignment s = Some a → a ∉ ({[assignment]} : gset Z))
               ↔ sub_assignment s ≠ Some assignment) as Hs.
  { intros s. split.
    - intros H Ha. apply (H _ Ha). set_solver.
    - intros H a Ha Hin. apply H. rewrite Ha. f_equal. set_solver. }
  split_and!.
  - unfold delete_assignments. fields. rewrite lookup_delete_pks.
    rewrite decide_True; [done|set_solver].
  - intros k s Hsub Ha.
    destruct (assignment_submissions (delete_assignments {[assignment]} db) !! k)
      as [s'|] eqn:E; [|done].
    apply lookup_submissions_delete_assignments in E as [E Hn].
    apply Hs in Hn. congruence.
  - intros k s. rewrite lookup_submissions_delete_assignments. by rewrite Hs.
Qed.

Lemma Assignment_delete_cascades_witness :
  assignments (Assignment_delete 1 scenario_db) !! 1 = None ∧
  assignment_submissions (Assignment_delete 1 scenario_db) !! 7 = None ∧
  assignment_submissions (Assignment_delete 1 scenario_db) !! 8
  = assignment_submissions scenario_db !! 8.
Proof.
  destruct (Assignment_delete_cascades scenario_db 1) as (Hgone & Hsubs & Hleft).
  split_and!.
  - exact Hgone.
  - eapply Hsubs; reflexivity.
  - apply Hleft. split; [reflexivity|done].
Defined.


(** C2, as the specification has it, fails: submission 7 of the example
    refers to assignment 1 and is gone once assignment 1 is deleted. *)
Lemma submissions_outlive_assignment_counterexample :
  ¬ submissions_outlive_assignment scenario_db 1.
Proof.
  intros H.
  specialize (H 7 _ ltac:(vm_compute; reflexivity) ltac:(reflexivity)).
  vm_compute in H. discriminate H.
Qed.

(** ** slugify on Basic Latin *)

Lemma is_ascii_not_cjk c : is_ascii c → cjk_ideograph c = false.
Proof. unfold is_ascii, cjk_ideograph. intros H. apply andb_false_iff. left. apply N.leb_gt. lia. Qed.

Lemma encode_ascii_ignore_ascii s : Forall is_ascii s → encode_ascii_ignore s = s.
Proof. intros H. apply filter_all. by apply Forall_forall. Qed.

Lemma ascii_lower_ascii s : Forall is_ascii s → Forall is_ascii (ascii_lower <$> s).
Proof.
  intros H. apply Forall_fmap. eapply Forall_impl; [done|].
  intros c Hc. unfold is_ascii, ascii_lower in *. simpl.
  destruct (N.leb_spec 65 c), (N.leb_spec c 90); simpl; lia.
Qed.

Section basic_latin.
Context (U : unicodedata) (HU : basic_latin U).

Lemma sub_not_word_space_hyphen_ascii s :
  Forall is_ascii s →
  sub_not_word_space_hyphen U s = sub_not_word_space_hyphen ucd_excerpt s.
Proof.
  unfold sub_not_word_space_hyphen. induction 1 as [|c s Hc Hs IH]; [done|].
  rewrite !filter_cons, IH. cbn [re_word re_space ucd_excerpt].
  rewrite (re_word_ascii U HU c Hc), (re_space_ascii U HU c Hc).
  rewrite (is_ascii_not_cjk c Hc), orb_false_r. done.
Qed.

Lemma sub_hyphen_space_runs_ascii in_run s :
  Forall is_ascii s →
  sub_hyphen_space_runs U in_run s = sub_hyphen_space_runs ucd_excerpt in_run s.
Proof.
  intros Hs. revert in_run. induction Hs as [|c s Hc Hs IH]; intros in_run; [done|].
  cbn [sub_hyphen_space_runs re_space ucd_excerpt].
  rewrite (re_space_ascii U HU c Hc), !IH. done.
Qed.

(** On a text of Basic Latin the result does not depend on the rest of
    the character database. *)
Lemma slugify_ascii s :
  Forall is_ascii s → slugify U s false = slugify ucd_excerpt s false.
Proof.
  intros Hs. unfold slugify. cbn [normalize lower ucd_excerpt].
  rewrite (normalize_ascii U HU NFKD s Hs), encode_ascii_ignore_ascii by done.
  rewrite (lower_ascii U HU s Hs).
  pose proof (ascii_lower_ascii s Hs) as Hl.
  rewrite sub_not_word_space_hyphen_ascii by done.
  rewrite sub_hyphen_space_runs_ascii; [done|].
  unfold sub_not_word_space_hyphen. apply Forall_forall. intros c Hc.
  apply list_elem_of_filter in Hc as [_ Hc].
  by eapply (proj1 (Forall_forall _ _)) in Hl.
Qed.
End basic_latin.

Lemma basic_latin_ucd_excerpt : basic_latin ucd_excerpt.
Proof.
  split; cbn [normalize lower re_word re_space ucd_excerpt]; try done.
  intros c Hc. by rewrite (is_ascii_not_cjk c Hc), orb_false_r.
Qed.

Lemma py_ascii s :
  forallb (λ c, (c <? 128)%N) (py s) = true → Forall is_ascii (py s).
Proof.
  intros H. apply Forall_forall. intros c Hc.
  rewrite forallb_forall in H. apply N.ltb_lt, H. by apply list_elem_of_In.
Qed.

(** ** Channel.save *)

Lemma Channel_save_fields U self db :
  channel_fields (Channel_save U self db).1.1
  = channel_fields
      (set_slug (slugify U (channel_name (channel_fields self)) false) self).
Proof. unfold Channel_save, Model_save. by case_decide. Qed.

(** The slug the instance has after [save] is that of its name, whatever it
    was before, and so is the row that was written. *)
Lemma Channel_save_slug U self db :
  let '(self', db', o) := Channel_save U self db in
  channel_name (channel_fields self') = channel_name (channel_fields self) ∧
  channel_slug (channel_fields self')
  = slugify U (channel_name (channel_fields self)) false ∧
  match o with
  | Done _ => ∃ pk, channel_pk self' = Some pk ∧
                    channels db' !! pk = Some (channel_fields self')
  | Raise _ => db' = db
  end.
Proof.
  unfold Channel_save, Model_save. case_decide; split_and!; try done.
  eexists. split; [done|]. fields. by rewrite lookup_insert_eq.
Qed.

(** A slug given to the instance beforehand is overwritten. *)
Lemma Channel_save_ignores_slug U slug self db :
  Channel_save U (set_slug slug self) db = Channel_save U self db.
Proof. reflexivity. Qed.

Lemma Channel_save_slugs_derived U self db :
  slugs_derived U db → slugs_derived U (Channel_save U self db).1.2.
Proof.
  intros Hd. unfold Channel_save, Model_save. case_decide; [|done].
  cbn [fst snd]. unfold slugs_derived. fields.
  apply map_Forall_insert_2; done.
Qed.

Lemma slugs_save_save_rename_save_spec U self name' db :
  slugs_save_save_rename_save U self name' db
  = (slugify U (channel_name (channel_fields self)) false,
     slugify U (channel_name (channel_fields self)) false,
     slugify U name' false).
Proof.
  unfold slugs_save_save_rename_save.
  pose proof (Channel_save_fields U self db) as H1.
  destruct (Channel_save U self db) as [[self1 db1] o1]. cbn [fst] in H1.
  pose proof (Channel_save_fields U self1 db1) as H2.
  destruct (Channel_save U self1 db1) as [[self2 db2] o2]. cbn [fst] in H2.
  pose proof (Channel_save_fields U (set_name name' self2) db2) as H3.
  destruct (Channel_save U (set_name name' self2) db2) as [[self3 db3] o3].
  cbn [fst] in H3. rewrite H1, H2, H3. cbn. rewrite H1. done.
Qed.

(** C3, as the code has it.  Saved twice, the channel named "Math Help!" has
    the slug "math-help" both times, and still has it when saved under the
    name "Math Help?": the two names have the same slug. *)
Theorem rename_keeps_slug (U : unicodedata) (self : ChannelInstance) (db : DB) :
  basic_latin U →
  channel_name (channel_fields self) = py "Math Help!" →
  slugs_save_save_rename_save U self (py "Math Help?") db
  = (py "math-help", py "math-help", py "math-help").
Proof.
  intros HU Hname. rewrite slugs_save_save_rename_save_spec, Hname.
  rewrite !(slugify_ascii U HU) by (apply py_ascii; vm_compute; reflexivity).
  vm_compute. reflexivity.
Qed.

Lemma rename_keeps_slug_witness :
  basic_latin ucd_excerpt ∧
  channel_name (channel_fields math_help) = py "Math Help!" ∧
  slugs_save_save_rename_save ucd_excerpt math_help (py "Math Help?") empty_db
  = (py "math-help", py "math-help", py "math-help").
Proof.
  split_and!.
  - exact basic_latin_ucd_excerpt.
  - reflexivity.
  - apply (rename_keeps_slug ucd_excerpt math_help empty_db).
    + exact basic_latin_ucd_excerpt.
    + reflexivity.
Defined.

(** C3, as the specification has it, fails: the third slug is the second. *)
Lemma rename_changes_slug_counterexample :
  ¬ rename_changes_slug ucd_excerpt math_help empty_db.
Proof.
  unfold rename_changes_slug.
  rewrite slugs_save_save_rename_save_spec. intros [_ Hne]. apply Hne.
  vm_compute. reflexivity.
Qed.

(** C5 at a name outside Basic Latin: the channel named U+6570 U+5B66 is
    saved with the empty slug, the two letters that a slug in Unicode keeps
    ([allow_unicode=True], which the slug field is declared with) being
    dropped; the row written has the empty slug too. *)
Theorem Channel_save_non_ascii_name :
  let '(self', db', o) := Channel_save ucd_excerpt shuxue empty_db in
  channel_slug (channel_fields self') = [] ∧
  o = Done () ∧
  channel_slug <$> channels db' !! 1 = Some [] ∧
  slugify ucd_excerpt (channel_name (channel_fields shuxue)) true
  = [25968; 23398]%N.
Proof. vm_compute. done. Qed.

(** ** MonthlySchedule *)

Lemma MonthlySchedule_insert_taken users row db k r :
  monthly_schedules db !! k = Some r → ms_month r = ms_month row →
  MonthlySchedule_insert users row db
  = (db, Raise (if MonthlySchedule_storable row then IntegrityError
                else OverflowError)).
Proof.
  intros Hk Hm. unfold MonthlySchedule_insert.
  destruct (MonthlySchedule_storable row); [|done].
  rewrite decide_False; [done|]. intros [_ Hall]. by apply (Hall k r Hk).
Qed.

(** The insert goes through exactly when the values fit their columns, the
    user exists and the month is free; the row is then stored under a new
    key. *)
Lemma MonthlySchedule_insert_Done users row db db' k :
  MonthlySchedule_insert users row db = (db', Done k) ↔
  MonthlySchedule_storable row = true ∧ ms_user row ∈ users ∧
  (∀ i r, monthly_schedules db !! i = Some r → ms_month r ≠ ms_month row) ∧
  k = next_pk (monthly_schedules db) ∧
  db' = set_monthly_schedules (<[k := row]> (monthly_schedules db)) db.
Proof.
  unfold MonthlySchedule_insert.
  destruct (MonthlySchedule_storable row); [|split; [done|by intros [? _]]].
  case_decide as Hd.
  - destruct Hd as [Hu Hfree]. split.
    + intros [= <- <-]. by split_and!.
    + by intros (_ & _ & _ & -> & ->).
  - split; [done|]. intros (_ & Hu & Hfree & _). destruct Hd. by split.
Qed.

Lemma MonthlySchedule_insert_Raise users row db db' e :
  MonthlySchedule_insert users row db = (db', Raise e) → db' = db.
Proof.
  unfold MonthlySchedule_insert.
  destruct (MonthlySchedule_storable row); [|by intros [= <-]].
  case_decide; [done|]. by intros [= <-].
Qed.

Lemma MonthlySchedule_insert_unique users row db :
  months_unique db → months_unique (MonthlySchedule_insert users row db).1.
Proof.
  intros Hu. unfold MonthlySchedule_insert.
  destruct (MonthlySchedule_storable row); [|done].
  case_decide as Hd; [|done]. destruct Hd as [_ Hall].
  cbn [fst]. unfold months_unique. fields.
  pose proof (next_pk_fresh (monthly_schedules db)) as Hfresh.
  intros k1 k2 r1 r2 H1 H2 Hm.
  apply lookup_insert_Some in H1 as [[<- <-]|[Hne1 H1]];
    apply lookup_insert_Some in H2 as [[<- <-]|[Hne2 H2]]; try done.
  - by destruct (Hall k2 r2 H2).
  - by destruct (Hall k1 r1 H1).
  - by eapply Hu.
Qed.

(** C7. A schedule whose month some stored schedule has is refused, whoever
    its user and whatever its year, and the database stays as it is: with
    an IntegrityError when its values fit their columns (with an
    OverflowError otherwise).  So, once an insert of a month has gone
    through, every further insert of that month is refused, the row of the
    first still there; and no two stored schedules ever come to share a
    month. *)
Theorem MonthlySchedule_month_unique
    (users : gset Z) (db : DB) (now : datetime) (month : Z) (year : option Z)
    (days user : Z) :
  (∀ k r, monthly_schedules db !! k = Some r → ms_month r = month →
          (MonthlySchedule_create users now month year days user db).1 = db ∧
          (∃ e, (MonthlySchedule_create users now month year days user db).2
                = Raise e) ∧
          (MonthlySchedule_storable (MonthlySchedule_init now month year days user)
           = true →
           MonthlySchedule_create users now month year days user db
           = (db, Raise IntegrityError))) ∧
  (∀ k, (MonthlySchedule_create users now month year days user db).2 = Done k →
        let db1 := (MonthlySchedule_create users now month year days user db).1 in
        monthly_schedules db1 !! k
        = Some (MonthlySchedule_init now month year days user) ∧
        ∀ users' now' year' days' user',
          let r2 := MonthlySchedule_create users' now' month year' days' user' db1 in
          r2.1 = db1 ∧ (∃ e, r2.2 = Raise e) ∧
          (MonthlySchedule_storable
             (MonthlySchedule_init now' month year' days' user') = true →
           r2.2 = Raise IntegrityError) ∧
          monthly_schedules r2.1 !! k
          = Some (MonthlySchedule_init now month year days user)) ∧
  (months_unique db →
   months_unique (MonthlySchedule_create users now month year days user db).1).
Proof.
  unfold MonthlySchedule_create.
  assert (∀ users' row' db0 k r,
            monthly_schedules db0 !! k = Some r → ms_month r = ms_month row' →
            (MonthlySchedule_insert users' row' db0).1 = db0 ∧
            (∃ e, (MonthlySchedule_insert users' row' db0).2 = Raise e) ∧
            (MonthlySchedule_storable row' = true →
             MonthlySchedule_insert users' row' db0 = (db0, Raise IntegrityError)))
    as Htaken.
  { intros users' row' db0 k r Hk Hm.
    rewrite (MonthlySchedule_insert_taken users' row' db0 k r Hk Hm).
    split_and!; [done|by eexists|]. by intros ->. }
  split_and!.
  - intros k r Hk Hm. by apply (Htaken _ _ _ k r).
  - intros k Hdone.
    destruct (MonthlySchedule_insert users
                (MonthlySchedule_init now month year days user) db)
      as [db1 o] eqn:E.
    cbn [fst snd] in *. subst o.
    apply MonthlySchedule_insert_Done in E as (_ & _ & _ & -> & ->).
    cbv zeta. fields. rewrite lookup_insert_eq. split; [done|].
    intros users' now' year' days' user'.
    set (db1 := set_monthly_schedules _ db).
    destruct (Htaken users' (MonthlySchedule_init now' month year' days' user') db1
                (next_pk (monthly_schedules db))
                (MonthlySchedule_init now month year days user))
      as (Hdb & He & Hi).
    { subst db1. fields. by rewrite lookup_insert_eq. }
    { done. }
    split_and!; [done|done|by intros ->%Hi|].
    rewrite Hdb. subst db1. fields. by rewrite lookup_insert_eq.
  - apply MonthlySchedule_insert_unique.
Qed.

(** Month 3 twice, into the empty database, for two users that exist. *)
Lemma MonthlySchedule_month_unique_witness :
  months_unique empty_db ∧
  (let r1 := MonthlySchedule_create {[10; 11]} noon 3 None 31 10 empty_db in
   let r2 := MonthlySchedule_create {[10; 11]} noon 3 (Some 2025) 31 11 r1.1 in
   r1.2 = Done 1 ∧
   r2.1 = r1.1 ∧ r2.2 = Raise IntegrityError ∧
   monthly_schedules r2.1 !! 1
   = Some {| ms_month := 3; ms_year := 2024; ms_days := 31; ms_user := 10 |} ∧
   months_unique r1.1).
Proof.
  assert (months_unique empty_db) as Hu.
  { intros k1 k2 r1 r2 H1. cbn in H1. by rewrite lookup_empty in H1. }
  split; [exact Hu|].
  destruct (MonthlySchedule_month_unique {[10; 11]} empty_db noon 3 None 31 10)
    as (_ & Htwice & Hkeep).
  destruct (Htwice 1 eq_refl) as [_ Hsecond].
  destruct (Hsecond {[10; 11]} noon (Some 2025) 31 11) as (Hdb & _ & Herr & Hrow).
  split_and!.
  - reflexivity.
  - exact Hdb.
  - exact (Herr eq_refl).
  - exact Hrow.
  - exact (Hkeep Hu).
Defined.

Local Ltac storable_fields :=
  unfold MonthlySchedule_storable, MonthlySchedule_init, get_current_year;
  cbn [ms_month ms_year ms_days ms_user].

(** C8. A schedule made without a year has the year the clock reads when
    it is made, and is stored with it; one made with a year has that year.
    The schedule is stored exactly when its values fit their columns, its
    user exists and its month is free: otherwise nothing is stored, and
    OverflowError, or else IntegrityError, is raised. *)
Theorem MonthlySchedule_default_year
    (users : gset Z) (db : DB) (now : datetime) (month days user : Z) :
  ms_year (MonthlySchedule_init now month None days user)
  = get_current_year now ∧
  get_current_year now = year now ∧
  (∀ y, ms_year (MonthlySchedule_init now month (Some y) days user) = y) ∧
  (∀ db' k, MonthlySchedule_create users now month None days user db = (db', Done k) →
            ∃ row, monthly_schedules db' !! k = Some row ∧
                   ms_year row = year now ∧ ms_month row = month ∧
                   ms_days row = days ∧ ms_user row = user) ∧
  ((∃ db' k, MonthlySchedule_create users now month None days user db
             = (db', Done k)) ↔
   (int64 month = true ∧ int64 (year now) = true ∧ int64 days = true ∧
    int64 user = true) ∧
   user ∈ users ∧
   (∀ k r, monthly_schedules db !! k = Some r → ms_month r ≠ month)) ∧
  (int64 month && int64 (year now) && int64 days && int64 user = false →
   MonthlySchedule_create users now month None days user db
   = (db, Raise OverflowError)) ∧
  (int64 month && int64 (year now) && int64 days && int64 user = true →
   user ∉ users ∨
   (∃ k r, monthly_schedules db !! k = Some r ∧ ms_month r = month) →
   MonthlySchedule_create users now month None days user db
   = (db, Raise IntegrityError)).
Proof.
  unfold MonthlySchedule_create.
  split_and!; try done.
  - intros db' k (_ & _ & _ & -> & ->)%MonthlySchedule_insert_Done. fields.
    rewrite lookup_insert_eq. by eexists.
  - split.
    + intros (db' & k & (Hst & Hu & Hfree & _)%MonthlySchedule_insert_Done).
      unfold MonthlySchedule_storable, MonthlySchedule_init, get_current_year in Hst.
      cbn [ms_month ms_year ms_days ms_user] in Hst.
      apply andb_true_iff in Hst as [Hst H4]. apply andb_true_iff in Hst as [Hst H3].
      apply andb_true_iff in Hst as [H1 H2]. by split_and!.
    + intros ((H1 & H2 & H3 & H4) & Hu & Hfree). do 2 eexists.
      apply MonthlySchedule_insert_Done. split_and!; [|done..].
      storable_fields. by rewrite H1, H2, H3, H4.
  - intros Hst. unfold MonthlySchedule_insert. storable_fields. by rewrite Hst.
  - intros Hst Hbad. unfold MonthlySchedule_insert. storable_fields.
    rewrite Hst. rewrite decide_False; [done|]. intros [Hu Hall].
    destruct Hbad as [?|(k & r & Hk & Hm)]; [done|]. by apply (Hall k r Hk).
Qed.

(** Noon of 17 May 2024: the schedule of user 10 is stored with the year
    2024; without a user 10, or with as many days as no column holds, it is
    not stored. *)
Lemma MonthlySchedule_default_year_witness :
  (∃ db', MonthlySchedule_create {[10]} noon 3 None 31 10 empty_db = (db', Done 1) ∧
          ms_year <$> monthly_schedules db' !! 1 = Some 2024) ∧
  MonthlySchedule_create ∅ noon 3 None 31 10 empty_db
  = (empty_db, Raise IntegrityError) ∧
  MonthlySchedule_create {[10]} noon 3 None (2 ^ 63) 10 empty_db
  = (empty_db, Raise OverflowError).
Proof.
  destruct (MonthlySchedule_default_year {[10]} empty_db noon 3 31 10)
    as (_ & _ & _ & Hstored & _).
  destruct (MonthlySchedule_default_year ∅ empty_db noon 3 31 10)
    as (_ & _ & _ & _ & _ & _ & Hintegrity).
  destruct (MonthlySchedule_default_year {[10]} empty_db noon 3 (2 ^ 63) 10)
    as (_ & _ & _ & _ & _ & Hoverflow & _).
  split_and!.
  - eexists. split; [reflexivity|].
    destruct (Hstored _ 1 eq_refl) as (row & Hrow & Hyear & _).
    rewrite Hrow. cbn. by rewrite Hyear.
  - apply Hintegrity; [reflexivity|]. left. apply not_elem_of_empty.
  - apply Hoverflow. reflexivity.
Defined.

(** * Further properties *)

(** ** The slugs of slugify *)

Ltac nbool :=
  repeat match goal with
    | |- context [(?a <=? ?b)%N] => destruct (N.leb_spec a b)
    | |- context [(?a <? ?b)%N] => destruct (N.ltb_spec a b)
    | |- context [(?a =? ?b)%N] => destruct (N.eqb_spec a b)
    | H : context [(?a <=? ?b)%N] |- _ => destruct (N.leb_spec a b)
    | H : context [(?a <? ?b)%N] |- _ => destruct (N.ltb_spec a b)
    | H : context [(?a =? ?b)%N] |- _ => destruct (N.eqb_spec a b)
    end;
  simpl in *; try done; try lia.

Lemma slug_char_ascii c : slug_char c = true → is_ascii c.
Proof. unfold slug_char, is_ascii, underscore, hyphen. intros H. nbool. Qed.

Lemma slug_char_lower c : slug_char c = true → ascii_lower c = c.
Proof. unfold slug_char, ascii_lower, underscore, hyphen. intros H. nbool. Qed.

Lemma slug_char_kept c :
  slug_char c = true → ascii_word c || ascii_space c || (c =? hyphen)%N = true.
Proof.
  unfold slug_char, ascii_word, ascii_space, underscore, hyphen. intros H. nbool.
Qed.

Lemma slug_char_not_space c : slug_char c = true → ascii_space c = false.
Proof. unfold slug_char, ascii_space, underscore, hyphen. intros H. nbool. Qed.

Lemma lowered_word_slug_char c :
  is_ascii c →
  ascii_word (ascii_lower c) = true ∨ ascii_lower c = hyphen →
  slug_char (ascii_lower c) = true.
Proof.
  unfold slug_char, ascii_word, ascii_lower, is_ascii, underscore, hyphen.
  intros Hc [H|H]; nbool.
Qed.

Lemma edge_char_chars c :
  bool_decide (c ∈ [hyphen; underscore]) = edge_char c.
Proof.
  unfold edge_char. destruct (N.eqb_spec c hyphen) as [->|Hh].
  { apply bool_decide_eq_true. by left. }
  destruct (N.eqb_spec c underscore) as [->|Hu].
  { apply bool_decide_eq_true. right. by left. }
  apply bool_decide_eq_false.
  intros [?|[?|[]%elem_of_nil]%elem_of_cons]%elem_of_cons; done.
Qed.

(** *** lstrip, rstrip, strip *)

Lemma lstrip_suffix chars s : lstrip chars s `suffix_of` s.
Proof.
  induction s as [|c s IH]; simpl; [done|].
  case_bool_decide; [by apply suffix_cons_r | done].
Qed.

Lemma rstrip_prefix chars s : rstrip chars s `prefix_of` s.
Proof.
  unfold rstrip. rewrite <-(reverse_involutive s) at 2.
  apply suffix_prefix_reverse, lstrip_suffix.
Qed.

Lemma lstrip_head chars s c : head (lstrip chars s) = Some c → c ∉ chars.
Proof.
  induction s as [|d s IH]; simpl; [done|].
  case_bool_decide; [done|]. simpl. by intros [= <-].
Qed.

Lemma lstrip_id chars s :
  (∀ c, head s = Some c → c ∉ chars) → lstrip chars s = s.
Proof.
  destruct s as [|c s]; simpl; [done|]. intros H.
  rewrite bool_decide_eq_false_2; [done|]. by apply H.
Qed.

Lemma rstrip_id chars s :
  (∀ c, last s = Some c → c ∉ chars) → rstrip chars s = s.
Proof.
  intros H. unfold rstrip. rewrite lstrip_id, reverse_involutive; [done|].
  intros c. rewrite head_reverse. apply H.
Qed.

Lemma strip_head chars s c : head (strip chars s) = Some c → c ∉ chars.
Proof.
  unfold strip. intros Hc.
  destruct (rstrip_prefix chars (lstrip chars s)) as [k Hk].
  apply (lstrip_head chars s c). rewrite Hk.
  destruct (rstrip chars (lstrip chars s)); [done|]. done.
Qed.

Lemma strip_last chars s c : last (strip chars s) = Some c → c ∉ chars.
Proof.
  unfold strip, rstrip. rewrite last_reverse. apply lstrip_head.
Qed.

Lemma strip_sublist chars s :
  ∃ l1 l2, s = l1 ++ strip chars s ++ l2.
Proof.
  unfold strip.
  destruct (rstrip_prefix chars (lstrip chars s)) as [l2 H2].
  destruct (lstrip_suffix chars s) as [l1 H1].
  exists l1, l2. by rewrite <-H2.
Qed.

(** *** Runs of hyphens *)

Lemma double_hyphen_app_r l1 l2 :
  double_hyphen (l1 ++ l2) = false → double_hyphen l2 = false.
Proof.
  induction l1 as [|c l1 IH]; [done|]. intros H. apply IH.
  simpl in H. destruct (l1 ++ l2); [done|].
  by apply orb_false_iff in H as [_ H].
Qed.

Lemma double_hyphen_app_l l1 l2 :
  double_hyphen (l1 ++ l2) = false → double_hyphen l1 = false.
Proof.
  induction l1 as [|c l1 IH]; [done|]. intros H.
  simpl in H. destruct l1 as [|d l1]; [done|]. simpl in *.
  apply orb_false_iff in H as [H1 H2]. rewrite H1. simpl. by apply IH.
Qed.

Lemma sub_hyphen_space_runs_shape U in_run s :
  double_hyphen (sub_hyphen_space_runs U in_run s) = false ∧
  (in_run = true → head (sub_hyphen_space_runs U in_run s) ≠ Some hyphen) ∧
  (∀ c, c ∈ sub_hyphen_space_runs U in_run s →
        c = hyphen ∨ (c ∈ s ∧ re_space U c = false)).
Proof.
  revert in_run. induction s as [|c s IH]; intros in_run.
  { split_and!; [done..|]. intros c Hc. by apply elem_of_nil in Hc. }
  cbn [sub_hyphen_space_runs].
  destruct (IH true) as (Hd1 & Hh1 & He1).
  destruct (IH false) as (Hd0 & _ & He0).
  destruct ((c =? hyphen)%N || re_space U c) eqn:Hsep.
  - destruct in_run.
    + split_and!; [done|auto|].
      intros d Hd. destruct (He1 d Hd) as [?|[? ?]]; [by left|right].
      split; [by right|done].
    + split_and!.
      * destruct (sub_hyphen_space_runs U true s) as [|d r] eqn:E; [done|].
        assert (d ≠ hyphen) as Hne by (intros ->; by apply Hh1).
        change (double_hyphen (hyphen :: d :: r))
          with ((hyphen =? hyphen)%N && (d =? hyphen)%N || double_hyphen (d :: r)).
        apply N.eqb_neq in Hne. by rewrite Hne, andb_false_r.
      * done.
      * intros d Hd. apply elem_of_cons in Hd as [->|Hd]; [by left|].
        destruct (He1 d Hd) as [?|[? ?]]; [by left|right]. split; [by right|done].
  - apply orb_false_iff in Hsep as [Hne Hsp].
    split_and!.
    + destruct (sub_hyphen_space_runs U false s) as [|d r] eqn:E; [done|].
      change (double_hyphen (c :: d :: r))
        with ((c =? hyphen)%N && (d =? hyphen)%N || double_hyphen (d :: r)).
      by rewrite Hne.
    + simpl. intros _ [= ->]. by rewrite N.eqb_refl in Hne.
    + intros d Hd. apply elem_of_cons in Hd as [->|Hd].
      * right. split; [by left|done].
      * destruct (He0 d Hd) as [?|[? ?]]; [by left|right]. split; [by right|done].
Qed.

Lemma sub_hyphen_space_runs_id U in_run s :
  Forall (λ c, re_space U c = false) s →
  double_hyphen s = false →
  (in_run = true → head s ≠ Some hyphen) →
  sub_hyphen_space_runs U in_run s = s.
Proof.
  intros Hs. revert in_run. induction Hs as [|c s Hc Hs IH]; intros in_run Hd Hh; [done|].
  cbn [sub_hyphen_space_runs]. rewrite Hc, orb_false_r.
  assert (double_hyphen s = false) as Hd' by apply (double_hyphen_app_r [c] s Hd).
  destruct (N.eqb_spec c hyphen) as [->|Hne].
  - destruct in_run; [by destruct Hh|]. f_equal. apply IH; [done|].
    intros _ Hhead. destruct s as [|d s]; [done|]. simpl in Hhead, Hd.
    injection Hhead as ->. done.
  - f_equal. by apply IH.
Qed.

(** *** The slugs are the well-formed ones *)

Lemma well_formed_slug_spec r :
  well_formed_slug r = true ↔
  Forall (λ c, slug_char c = true) r ∧ double_hyphen r = false ∧
  (∀ c, head r = Some c → edge_char c = false) ∧
  (∀ c, last r = Some c → edge_char c = false).
Proof.
  unfold well_formed_slug. rewrite !andb_true_iff, !negb_true_iff.
  rewrite forallb_forall, Forall_forall. setoid_rewrite <-list_elem_of_In.
  split.
  - intros (((Hall & Hd) & Hh) & Hl). split_and!; [done..| |].
    + intros c Hc. by rewrite Hc in Hh.
    + intros c Hc. by rewrite Hc in Hl.
  - intros (Hall & Hd & Hh & Hl). split_and!; [done..| |].
    + destruct (head r) as [c|]; [by apply Hh|done].
    + destruct (last r) as [c|]; [by apply Hl|done].
Qed.

Section slugs.
Context (U : unicodedata) (HU : basic_latin U).

Lemma slugify_well_formed s : well_formed_slug (slugify U s false) = true.
Proof.
  apply well_formed_slug_spec. unfold slugify.
  set (v0 := encode_ascii_ignore (normalize U NFKD s)).
  assert (Forall is_ascii v0) as H0.
  { apply Forall_forall. intros c Hc. by apply list_elem_of_filter in Hc as [? _]. }
  rewrite (lower_ascii U HU v0 H0).
  set (v2 := sub_not_word_space_hyphen U (ascii_lower <$> v0)).
  set (v3 := sub_hyphen_space_runs U false v2).
  destruct (sub_hyphen_space_runs_shape U false v2) as (Hd & _ & He).
  fold v3 in Hd, He.
  destruct (strip_sublist [hyphen; underscore] v3) as (l1 & l2 & Hv3).
  split_and!.
  - apply Forall_forall. intros c Hc.
    assert (c ∈ v3) as Hc3.
    { rewrite Hv3. apply elem_of_app. right. apply elem_of_app. by left. }
    destruct (He c Hc3) as [->|[Hc2 Hsp]]; [done|].
    apply list_elem_of_filter in Hc2 as [Hkeep Hc1].
    apply list_elem_of_fmap in Hc1 as (c0 & -> & Hc0).
    assert (is_ascii c0) as Ha0 by by eapply (proj1 (Forall_forall _ _)) in H0.
    assert (is_ascii (ascii_lower c0)) as Ha.
    { pose proof (ascii_lower_ascii v0 H0) as Hl.
      eapply (proj1 (Forall_forall _ _)) in Hl; [done|].
      apply list_elem_of_fmap. eauto. }
    rewrite Hsp, orb_false_r in Hkeep.
    rewrite (re_word_ascii U HU _ Ha) in Hkeep.
    apply lowered_word_slug_char; [done|].
    apply orb_true_iff in Hkeep as [?|Hh]; [by left|right].
    by apply N.eqb_eq in Hh.
  - rewrite Hv3 in Hd.
    by apply double_hyphen_app_r, double_hyphen_app_l in Hd.
  - intros c Hc. apply strip_head in Hc.
    rewrite <-edge_char_chars. by apply bool_decide_eq_false.
  - intros c Hc. apply strip_last in Hc.
    rewrite <-edge_char_chars. by apply bool_decide_eq_false.
Qed.

Lemma slugify_fixed r : well_formed_slug r = true → slugify U r false = r.
Proof.
  intros (Hall & Hd & Hh & Hl)%well_formed_slug_spec. unfold slugify.
  assert (Forall is_ascii r) as Ha.
  { eapply Forall_impl; [exact Hall|]. apply slug_char_ascii. }
  rewrite (normalize_ascii U HU NFKD r Ha), encode_ascii_ignore_ascii by done.
  rewrite (lower_ascii U HU r Ha).
  assert (ascii_lower <$> r = r) as ->.
  { clear -Hall. induction Hall as [|c r Hc Hr IH]; [done|].
    csimpl. by rewrite IH, slug_char_lower. }
  assert (sub_not_word_space_hyphen U r = r) as ->.
  { unfold sub_not_word_space_hyphen. apply filter_all. intros c Hc.
    assert (slug_char c = true) as Hs by by eapply (proj1 (Forall_forall _ _)) in Hall.
    pose proof (slug_char_ascii c Hs) as Hca.
    rewrite (re_word_ascii U HU c Hca), (re_space_ascii U HU c Hca).
    by apply slug_char_kept. }
  rewrite sub_hyphen_space_runs_id; [| |done..].
  - unfold strip. rewrite lstrip_id, rstrip_id; [done| |].
    + intros c Hc. specialize (Hl c Hc). rewrite <-edge_char_chars in Hl.
      by apply bool_decide_eq_false in Hl.
    + intros c Hc. specialize (Hh c Hc). rewrite <-edge_char_chars in Hh.
      by apply bool_decide_eq_false in Hh.
  - eapply Forall_impl; [exact Hall|]. intros c Hs. cbn beta.
    rewrite (re_space_ascii U HU c (slug_char_ascii c Hs)).
    by apply slug_char_not_space.
Qed.

Lemma slugify_image r :
  well_formed_slug r = true ↔ ∃ s, slugify U s false = r.
Proof.
  split.
  - intros Hr. exists r. by apply slugify_fixed.
  - intros [s <-]. apply slugify_well_formed.
Qed.

End slugs.

(** ** Channel.save and the unique columns *)

(** X1.  Whatever the name of the channel, the slug [save] leaves on the
    instance, and writes when it does not raise, is made of lower-case
    letters of Basic Latin, digits, underscores and hyphens, has no two
    hyphens in a row, and neither begins nor ends with a hyphen or an
    underscore. *)
Theorem Channel_save_slug_well_formed (U : unicodedata) (self : ChannelInstance) (db : DB) :
  basic_latin U →
  let '(self', db', o) := Channel_save U self db in
  let slug := channel_slug (channel_fields self') in
  Forall (λ c, slug_char c = true) slug ∧
  double_hyphen slug = false ∧
  (∀ c, head slug = Some c → c ≠ hyphen ∧ c ≠ underscore) ∧
  (∀ c, last slug = Some c → c ≠ hyphen ∧ c ≠ underscore) ∧
  (o = Done () →
   ∃ pk, channel_pk self' = Some pk ∧
         channel_slug <$> channels db' !! pk = Some slug).
Proof.
  intros HU. pose proof (Channel_save_slug U self db) as Hs.
  destruct (Channel_save U self db) as [[self' db'] o].
  destruct Hs as (_ & Hslug & Ho). cbv zeta.
  pose proof (slugify_well_formed U HU (channel_name (channel_fields self))) as Hwf.
  rewrite <-Hslug in Hwf.
  apply well_formed_slug_spec in Hwf as (Hall & Hd & Hh & Hl).
  assert (∀ c, edge_char c = false → c ≠ hyphen ∧ c ≠ underscore) as He.
  { intros c Hc. unfold edge_char in Hc. apply orb_false_iff in Hc as [H1 H2].
    by apply N.eqb_neq in H1, H2. }
  split_and!; [done..|auto|auto|].
  intros ->. destruct Ho as (pk & Hpk & Hrow). exists pk.
  split; [done|]. by rewrite Hrow.
Qed.

Lemma Channel_save_slug_well_formed_witness :
  basic_latin ucd_excerpt ∧
  let '(self', db', o) := Channel_save ucd_excerpt math_help empty_db in
  let slug := channel_slug (channel_fields self') in
  Forall (λ c, slug_char c = true) slug ∧
  double_hyphen slug = false ∧
  (∀ c, head slug = Some c → c ≠ hyphen ∧ c ≠ underscore) ∧
  (∀ c, last slug = Some c → c ≠ hyphen ∧ c ≠ underscore) ∧
  (o = Done () →
   ∃ pk, channel_pk self' = Some pk ∧
         channel_slug <$> channels db' !! pk = Some slug).
Proof.
  split; [exact basic_latin_ucd_excerpt|].
  exact (Channel_save_slug_well_formed ucd_excerpt math_help empty_db
           basic_latin_ucd_excerpt).
Defined.

(** X2.  A channel named by a well-formed slug has its name for slug; so the slug
    of a saved channel, taken as the name of a channel, is the slug of that
    channel too. *)
Theorem Channel_save_slug_of_slug (U : unicodedata) (self other : ChannelInstance)
    (db1 db2 : DB) :
  basic_latin U →
  (well_formed_slug (channel_name (channel_fields self)) = true →
   channel_slug (channel_fields (Channel_save U self db1).1.1)
   = channel_name (channel_fields self)) ∧
  (let slug := channel_slug (channel_fields (Channel_save U self db1).1.1) in
   channel_slug (channel_fields (Channel_save U (set_name slug other) db2).1.1)
   = slug).
Proof.
  intros HU. split.
  - rewrite Channel_save_fields. cbn. apply (slugify_fixed U HU).
  - cbv zeta. rewrite !Channel_save_fields. cbn.
    apply (slugify_fixed U HU), (slugify_well_formed U HU).
Qed.

Lemma Channel_save_slug_of_slug_witness :
  basic_latin ucd_excerpt ∧
  channel_slug (channel_fields
    (Channel_save ucd_excerpt (set_name (py "math-help") shuxue) empty_db).1.1)
  = py "math-help".
Proof.
  split; [exact basic_latin_ucd_excerpt|].
  destruct (Channel_save_slug_of_slug ucd_excerpt
              (set_name (py "math-help") shuxue) shuxue empty_db empty_db
              basic_latin_ucd_excerpt) as [Hname _].
  apply Hname. reflexivity.
Defined.

Lemma Channel_save_conflict U self db k r :
  channels db !! k = Some r →
  channel_pk self ≠ Some k →
  channel_name r = channel_name (channel_fields self) ∨
  channel_slug r = slugify U (channel_name (channel_fields self)) false →
  Channel_save U self db
  = (set_slug (slugify U (channel_name (channel_fields self)) false) self,
     db, Raise IntegrityError).
Proof.
  intros Hk Hpk Hsame. unfold Channel_save, Model_save.
  rewrite decide_False; [done|]. intros Hall.
  destruct (Hall k r Hk) as [Hn Hs]; [by intros ?|].
  destruct Hsame; [by apply Hn | by apply Hs].
Qed.

(** X3.  When another channel already has the name, or has the slug the name
    gives, [save] raises IntegrityError and writes nothing, the instance
    being left with the new slug all the same. *)
Theorem Channel_save_taken (U : unicodedata) (self : ChannelInstance) (db : DB)
    (k : Z) (r : Channel) :
  channels db !! k = Some r →
  channel_pk self ≠ Some k →
  channel_name r = channel_name (channel_fields self) ∨
  channel_slug r = slugify U (channel_name (channel_fields self)) false →
  Channel_save U self db
  = (set_slug (slugify U (channel_name (channel_fields self)) false) self,
     db, Raise IntegrityError).
Proof. apply Channel_save_conflict. Qed.

(** "Math Help!" is stored; a new channel "Math Help?" is refused. *)
Lemma Channel_save_taken_witness :
  let db1 := (Channel_save ucd_excerpt math_help empty_db).1.2 in
  channel_name <$> channels db1 !! 1 = Some (py "Math Help!") ∧
  Channel_save ucd_excerpt (set_name (py "Math Help?") math_help) db1
  = (set_slug (py "math-help") (set_name (py "Math Help?") math_help),
     db1, Raise IntegrityError).
Proof.
  split; [reflexivity|].
  apply (Channel_save_taken ucd_excerpt (set_name (py "Math Help?") math_help)
           (Channel_save ucd_excerpt math_help empty_db).1.2 1
           (channel_fields (Channel_save ucd_excerpt math_help empty_db).1.1)).
  - reflexivity.
  - done.
  - right. reflexivity.
Defined.

(** X4.  [save] keeps the names and the slugs of the stored channels pairwise
    distinct, and each slug that of its name. *)
Theorem Channel_save_keeps_unique (U : unicodedata) (self : ChannelInstance) (db : DB) :
  channels_unique db → slugs_derived U db →
  channels_unique (Channel_save U self db).1.2 ∧
  slugs_derived U (Channel_save U self db).1.2.
Proof.
  intros Hu Hd. split; [|by apply Channel_save_slugs_derived].
  unfold Channel_save, Model_save. case_decide as Hall; [|done].
  cbn [fst snd]. unfold channels_unique. fields.
  set (self1 := set_slug _ self) in *.
  set (pk := default (next_pk (channels db)) (channel_pk self1)).
  assert (∀ k r, channels db !! k = Some r → k ≠ pk →
                 channel_name r ≠ channel_name (channel_fields self1) ∧
                 channel_slug r ≠ channel_slug (channel_fields self1)) as Hother.
  { intros k r Hk Hne. apply (Hall k r Hk). subst pk.
    destruct (channel_pk self1) as [k0|]; [|done]. simpl in Hne. congruence. }
  intros k1 k2 r1 r2 H1 H2 Hsame.
  apply lookup_insert_Some in H1 as [[<- <-]|[Hne1 H1]];
    apply lookup_insert_Some in H2 as [[<- <-]|[Hne2 H2]]; try done.
  - destruct (Hother k2 r2 H2) as [Hn Hs]; [done|].
    destruct Hsame as [Hsame|Hsame]; by rewrite Hsame in *.
  - destruct (Hother k1 r1 H1) as [Hn Hs]; [done|].
    destruct Hsame as [Hsame|Hsame]; by rewrite Hsame in *.
  - by eapply Hu.
Qed.

Lemma Channel_save_keeps_unique_witness :
  channels_unique empty_db ∧ slugs_derived ucd_excerpt empty_db ∧
  channels_unique (Channel_save ucd_excerpt math_help empty_db).1.2 ∧
  slugs_derived ucd_excerpt (Channel_save ucd_excerpt math_help empty_db).1.2.
Proof.
  assert (channels_unique empty_db) as Hu.
  { intros k1 k2 r1 r2 H1. cbn in H1. by rewrite lookup_empty in H1. }
  assert (slugs_derived ucd_excerpt empty_db) as Hd.
  { intros k r Hk. cbn in Hk. by rewrite lookup_empty in Hk. }
  split_and!; [exact Hu|exact Hd|..];
    apply (Channel_save_keeps_unique ucd_excerpt math_help empty_db Hu Hd).
Defined.

(** X5.  Saving again what was just saved writes the same row under the same
    key and changes nothing. *)
Theorem Channel_save_again (U : unicodedata) (self self' : ChannelInstance) (db db' : DB) :
  Channel_save U self db = (self', db', Done ()) →
  Channel_save U self' db' = (self', db', Done ()).
Proof.
  unfold Channel_save, Model_save. case_decide as Hall; [|done].
  intros [= <- <-]. cbn [channel_fields channel_name set_slug channel_pk].
  set (self1 := set_slug _ self) in *.
  set (pk := default (next_pk (channels db)) (channel_pk self)).
  rewrite decide_True.
  - cbn [default]. fields. rewrite insert_insert_eq. done.
  - fields. intros k r Hk Hne. cbn [channel_pk channel_fields] in *.
    apply lookup_insert_Some in Hk as [[-> _]|[Hne' Hk]]; [done|].
    apply (Hall k r Hk). subst pk. cbn [channel_pk set_slug self1].
    destruct (channel_pk self) as [k0|]; [|done]. simpl in Hne'. congruence.
Qed.

Lemma Channel_save_again_witness :
  let '(self', db', o) := Channel_save ucd_excerpt math_help empty_db in
  o = Done () ∧ Channel_save ucd_excerpt self' db' = (self', db', Done ()).
Proof.
  split; [reflexivity|].
  apply (Channel_save_again ucd_excerpt math_help _ empty_db _). reflexivity.
Defined.

(** ** The query along the writes *)





(** X7.  Once a quiz is deleted the query returns nothing for it, for any
    student; for every other quiz it returns the same questions as before. *)
Theorem Quiz_delete_unanswered (db : DB) (quiz student : Z) :
  get_unanswered_questions (Quiz_delete quiz db) student quiz = [] ∧
  (∀ quiz' x, quiz' ≠ quiz →
     x ∈ get_unanswered_questions (Quiz_delete quiz db) student quiz' ↔
     x ∈ get_unanswered_questions db student quiz').
Proof.
  unfold Quiz_delete.
  assert (∀ x : Z, x ∉ ({[quiz]} : gset Z) ↔ x ≠ quiz) as Hs by set_solver.
  split.
  - apply elem_of_nil_inv. intros [pk q] Hin.
    apply elem_of_get_unanswered_questions in Hin as (Hq & Hquiz & _).
    apply lookup_questions_delete_quizzes in Hq as [_ Hn]. by apply Hs in Hn.
  - intros quiz' [pk q] Hne. rewrite !elem_of_get_unanswered_questions.
    rewrite lookup_questions_delete_quizzes, Hs.
    split.
    + intros ((Hq & _) & Hquiz & Hn). split_and!; [done..|].
      intros (k & sa & a_pk & a & Hsa & Hst & Ha & Hans & Hpk). apply Hn.
      exists k, sa, a_pk, a. split_and!; [|done..| |done].
      * apply lookup_student_answers_delete_quizzes. split; [done|].
        intros a_pk' a' q' ? ? Hq'. apply Hs. simplify_eq. congruence.
      * apply lookup_answers_delete_quizzes. split; [done|].
        intros q' Hq'. apply Hs. simplify_eq. congruence.
    + intros (Hq & Hquiz & Hn). split_and!; [done|congruence|done|].
      intros (k & sa & a_pk & a & Hsa & Hst & Ha & Hans & Hpk). apply Hn.
      apply lookup_student_answers_delete_quizzes in Hsa as [Hsa _].
      apply lookup_answers_delete_quizzes in Hans as [Hans _].
      by exists k, sa, a_pk, a.
Qed.

(** ** Deleting a question *)

(** X8.  Deleting a question deletes its answers and the student answers that
    name one of them; the other questions, answers and student answers stay
    as they are, and so do the quizzes and the TakenQuiz rows; the question
    is returned by the query no more. *)
Theorem Question_delete_cascades (db : DB) (question : Z) :
  let db' := Question_delete question db in
  (∀ k q, questions db' !! k = Some q ↔
          questions db !! k = Some q ∧ k ≠ question) ∧
  (∀ k a, answers db' !! k = Some a ↔
          answers db !! k = Some a ∧ answer_question a ≠ question) ∧
  (∀ k sa, student_answers db' !! k = Some sa ↔
           student_answers db !! k = Some sa ∧
           ∀ a_pk a, sa_answer sa = Some a_pk → answers db !! a_pk = Some a →
                     answer_question a ≠ question) ∧
  quizzes db' = quizzes db ∧
  taken_quizzes db' = taken_quizzes db ∧
  (∀ student quiz q, (question, q) ∉ get_unanswered_questions db' student quiz).
Proof.
  intros db'. subst db'. unfold Question_delete.
  assert (∀ x : Z, x ∉ ({[question]} : gset Z) ↔ x ≠ question) as Hs by set_solver.
  split_and!; [| | |done|done|].
  - intros k q. rewrite lookup_questions_delete_questions.
    case_decide as Hin.
    + split; [done|]. intros [_ Hne]. by apply Hs in Hne.
    + apply Hs in Hin. tauto.
  - intros k a. rewrite lookup_answers_delete_questions. by rewrite Hs.
  - intros k sa. rewrite lookup_student_answers_delete_questions.
    by setoid_rewrite Hs.
  - intros student quiz q Hin.
    apply elem_of_get_unanswered_questions in Hin as (Hq & _).
    rewrite lookup_questions_delete_questions in Hq.
    rewrite decide_True in Hq; [done|set_solver].
Qed.

Lemma Question_delete_cascades_witness :
  questions (Question_delete 2 scenario_db) !! 2 = None ∧
  answers (Question_delete 2 scenario_db) !! 3 = None ∧
  student_answers (Question_delete 2 scenario_db) !! 1 = None ∧
  student_answers (Question_delete 2 scenario_db) !! 3
  = Some {| sa_student := 21; sa_answer := Some 1 |} ∧
  quizzes (Question_delete 2 scenario_db) = quizzes scenario_db.
Proof.
  destruct (Question_delete_cascades scenario_db 2)
    as (Hq & Ha & Hsa & Hquizzes & _).
  split_and!; [reflexivity..| |exact Hquizzes].
  apply Hsa. split; [reflexivity|]. intros a_pk a [= <-] Ha1.
  vm_compute in Ha1. by simplify_eq.
Defined.

(** ** Referential integrity *)

Lemma lookup_student_assignments_delete_assignments pks db k sa :
  student_assignments (delete_assignments pks db) !! k = Some sa ↔
  student_assignments db !! k = Some sa ∧ sa.2 ∉ pks.
Proof.
  unfold delete_assignments. fields. rewrite lookup_collect_cascade by done.
  keys. done.
Qed.

Lemma lookup_assignments_delete_assignments pks db k :
  assignments (delete_assignments pks db) !! k
  = if decide (k ∈ pks) then None else assignments db !! k.
Proof. unfold delete_assignments. fields. apply lookup_delete_pks. Qed.

Lemma delete_answers_references_valid pks db :
  references_valid db → references_valid (delete_answers pks db).
Proof.
  intros [Hq Ha Ht Hsa Hsub Hst]. split; try done.
  - intros k a. rewrite lookup_answers_delete_answers. case_decide; [done|].
    apply Ha.
  - apply student_answers_valid_spec, delete_answers_valid.
    by apply student_answers_valid_spec.
Qed.

Lemma delete_questions_references_valid pks db :
  references_valid db → references_valid (delete_questions pks db).
Proof.
  intros [Hq Ha Ht Hsa Hsub Hst]. split; try done.
  - intros k q. rewrite lookup_questions_delete_questions. case_decide; [done|].
    apply Hq.
  - intros k a Hk. apply lookup_answers_delete_questions in Hk as [Hk Hn].
    rewrite lookup_questions_delete_questions, decide_False by done.
    by eapply Ha.
  - apply student_answers_valid_spec, delete_questions_valid.
    by apply student_answers_valid_spec.
Qed.

Lemma delete_quizzes_references_valid pks db :
  references_valid db → references_valid (delete_quizzes pks db).
Proof.
  intros [Hq Ha Ht Hsa Hsub Hst]. split; try done.
  - intros k q Hk. apply lookup_questions_delete_quizzes in Hk as [Hk Hn].
    rewrite lookup_quizzes_delete_quizzes, decide_False by done.
    by eapply Hq.
  - intros k a Hk. apply lookup_answers_delete_quizzes in Hk as [Hk Hn].
    destruct (Ha k a Hk) as [q Hqa]. exists q.
    apply lookup_questions_delete_quizzes. split; [done|]. by apply Hn.
  - intros k t Hk. apply lookup_taken_quizzes_delete_quizzes in Hk as [Hk Hn].
    rewrite lookup_quizzes_delete_quizzes, decide_False by done.
    by eapply Ht.
  - apply student_answers_valid_spec, delete_quizzes_valid.
    by apply student_answers_valid_spec.
Qed.

Lemma delete_assignments_references_valid pks db :
  references_valid db → references_valid (delete_assignments pks db).
Proof.
  intros [Hq Ha Ht Hsa Hsub Hst]. split; try done.
  - intros k s a Hk Hs.
    apply lookup_submissions_delete_assignments in Hk as [Hk Hn].
    rewrite lookup_assignments_delete_assignments, decide_False by by apply Hn.
    by eapply Hsub.
  - intros k sa Hk.
    apply lookup_student_assignments_delete_assignments in Hk as [Hk Hn].
    rewrite lookup_assignments_delete_assignments, decide_False by done.
    by eapply Hst.
Qed.

Lemma run_references_valid db o :
  references_valid db → references_valid (run db o).
Proof.
  intros Hv. destruct o; cbn [run].
  - by apply delete_quizzes_references_valid.
  - by apply delete_questions_references_valid.
  - by apply delete_answers_references_valid.
  - by apply delete_assignments_references_valid.
  - destruct Hv as [Hq Ha Ht Hsa Hsub Hst]. unfold StudentAnswer_create.
    destruct (fk_exists (answers db) (sa_answer sa)) eqn:Hfk; cbn [fst];
      [|by split].
    split; try done. fields. intros k sa' a Hk Hsa'.
    apply lookup_insert_Some in Hk as [[_ <-]|[_ Hk]]; [|by eapply Hsa].
    rewrite Hsa' in Hfk. simpl in Hfk. by apply bool_decide_eq_true in Hfk.
  - destruct Hv as [Hq Ha Ht Hsa Hsub Hst]. split; try done.
    apply student_answers_valid_spec, StudentAnswer_delete_valid.
    by apply student_answers_valid_spec.
  - unfold Channel_save, Model_save. case_decide; [|done].
    by destruct Hv; split.
  - unfold MonthlySchedule_create, MonthlySchedule_insert.
    destruct (MonthlySchedule_storable _); [|done]. case_decide; [|done].
    by destruct Hv; split.
Qed.

(** X9.  No history of writes leads from a database in which every foreign key
    names a row that is there to one with a dangling key: what a deleted row
    was referred by is deleted with it, down the whole chain from quiz to
    question, answer and student answer, and an insert is checked. *)
Theorem references_stay_valid (db : DB) (os : list operation) :
  references_valid db → references_valid (run_all db os).
Proof.
  unfold run_all. revert db. induction os as [|o os IH]; intros db Hv; [done|].
  simpl. apply IH. by apply run_references_valid.
Qed.

Ltac by_table P t :=
  let H := fresh in
  assert (map_Forall P t) as H
    by (apply (bool_decide_unpack _); vm_compute; exact I);
  eapply H; eassumption.

Lemma references_valid_scenario : references_valid scenario_db.
Proof.
  split.
  - intros k q Hk.
    by_table (λ (_ : Z) q, is_Some (quizzes scenario_db !! question_quiz q))
             (questions scenario_db).
  - intros k a Hk.
    by_table (λ (_ : Z) a, is_Some (questions scenario_db !! answer_question a))
             (answers scenario_db).
  - intros k t Hk.
    by_table (λ (_ : Z) t, is_Some (quizzes scenario_db !! taken_quiz t))
             (taken_quizzes scenario_db).
  - apply student_answers_valid_spec.
    apply (bool_decide_unpack _). vm_compute. exact I.
  - intros k s a Hk Hs.
    assert (fk_exists (assignments scenario_db) (sub_assignment s) = true) as Hfk.
    { by_table (λ (_ : Z) s, fk_exists (assignments scenario_db) (sub_assignment s) = true)
               (assignment_submissions scenario_db). }
    rewrite Hs in Hfk. simpl in Hfk. by apply bool_decide_eq_true in Hfk.
  - intros k sa Hk.
    by_table (λ (_ : Z) (sa : Z * Z), is_Some (assignments scenario_db !! sa.2))
             (student_assignments scenario_db).
Qed.

Lemma references_stay_valid_witness :
  references_valid scenario_db ∧
  references_valid
    (run_all scenario_db
       [QuizDelete 1;
        StudentAnswerCreate {| sa_student := 21; sa_answer := Some 5 |};
        StudentAnswerCreate {| sa_student := 21; sa_answer := Some 1 |};
        AssignmentDelete 1; QuestionDelete 5]).
Proof.
  split; [exact references_valid_scenario|].
  apply references_stay_valid. exact references_valid_scenario.
Defined.

(** ** Deleting an assignment, deleting twice *)

(** X10.  Deleting an assignment takes it off the students it was assigned to,
    and leaves the assignments of the others, and every table of the quizzes,
    as they are. *)
Theorem Assignment_delete_unassigns (db : DB) (assignment : Z) :
  let db' := Assignment_delete assignment db in
  (∀ k sa, student_assignments db' !! k = Some sa ↔
           student_assignments db !! k = Some sa ∧ sa.2 ≠ assignment) ∧
  (∀ k a, assignments db' !! k = Some a ↔
          assignments db !! k = Some a ∧ k ≠ assignment) ∧
  quizzes db' = quizzes db ∧ questions db' = questions db ∧
  answers db' = answers db ∧ student_answers db' = student_answers db ∧
  taken_quizzes db' = taken_quizzes db.
Proof.
  intros db'. subst db'. unfold Assignment_delete.
  assert (∀ x : Z, x ∉ ({[assignment]} : gset Z) ↔ x ≠ assignment) as Hs by set_solver.
  split_and!; try done.
  - intros k sa. rewrite lookup_student_assignments_delete_assignments.
    by rewrite Hs.
  - intros k a. rewrite lookup_assignments_delete_assignments.
    case_decide as Hin.
    + split; [done|]. intros [_ Hne]. by apply Hs in Hne.
    + apply Hs in Hin. tauto.
Qed.

Lemma DB_eq db1 db2 :
  quizzes db1 = quizzes db2 → questions db1 = questions db2 →
  answers db1 = answers db2 → assignments db1 = assignments db2 →
  student_assignments db1 = student_assignments db2 →
  taken_quizzes db1 = taken_quizzes db2 →
  student_answers db1 = student_answers db2 →
  assignment_submissions db1 = assignment_submissions db2 →
  channels db1 = channels db2 →
  monthly_schedules db1 = monthly_schedules db2 →
  db1 = db2.
Proof. destruct db1, db2. simpl. by intros -> -> -> -> -> -> -> -> -> ->. Qed.

Lemma map_eq_Some {A} (m1 m2 : gmap Z A) :
  (∀ k x, m1 !! k = Some x ↔ m2 !! k = Some x) → m1 = m2.
Proof. intros H. apply map_eq. intros k. apply option_eq. intros x. apply H. Qed.

(** X11.  Deleting is idempotent: a second delete of the same quizzes finds
    nothing left to delete. *)
Theorem delete_quizzes_idempotent (db : DB) (pks : gset Z) :
  delete_quizzes pks (delete_quizzes pks db) = delete_quizzes pks db.
Proof.
  apply DB_eq; try done.
  - apply map_eq. intros k. rewrite !lookup_quizzes_delete_quizzes.
    by case_decide.
  - apply map_eq_Some. intros k q. rewrite !lookup_questions_delete_quizzes. tauto.
  - apply map_eq_Some. intros k a. rewrite lookup_answers_delete_quizzes.
    split; [tauto|]. intros Ha. split; [done|].
    intros q Hq. by apply lookup_questions_delete_quizzes in Hq as [_ ?].
  - apply map_eq_Some. intros k t. rewrite !lookup_taken_quizzes_delete_quizzes. tauto.
  - apply map_eq_Some. intros k sa. rewrite lookup_student_answers_delete_quizzes.
    split; [tauto|]. intros Hsa. split; [done|].
    intros a_pk a q _ _ Hq. by apply lookup_questions_delete_quizzes in Hq as [_ ?].
Qed.

(** ** Subject.get_html_badge *)

Lemma replace_app old new s1 s2 :
  replace old new (s1 ++ s2) = replace old new s1 ++ replace old new s2.
Proof. unfold replace. apply bind_app. Qed.

Lemma replace_cons old new c s :
  replace old new (c :: s)
  = (if (c =? old)%N then new else [c]) ++ replace old new s.
Proof. done. Qed.

Lemma replace_other old new c : c ≠ old → replace old new [c] = [c].
Proof. intros Hne. rewrite replace_cons. apply N.eqb_neq in Hne. by rewrite Hne. Qed.

(** The five replacements, one after the other, come to replacing each
    character on its own: no replacement touches what an earlier one
    wrote (the ampersand goes first). *)
Lemma html_escape_chars s : html_escape s true = s ≫= escape_char.
Proof.
  unfold html_escape. induction s as [|c s IH]; [done|].
  rewrite bind_cons, <-IH. rewrite (replace_cons ampersand).
  rewrite !replace_app. f_equal.
  unfold escape_char.
  destruct (N.eqb_spec c ampersand) as [->|H1]; [done|].
  destruct (N.eqb_spec c less_than) as [->|H2]; [done|].
  destruct (N.eqb_spec c greater_than) as [->|H3]; [done|].
  destruct (N.eqb_spec c quotation_mark) as [->|H4]; [done|].
  destruct (N.eqb_spec c apostrophe) as [->|H5]; [done|].
  by rewrite !replace_other.
Qed.

Lemma escape_char_markup c d :
  d ∈ escape_char c →
  d ≠ less_than ∧ d ≠ greater_than ∧ d ≠ quotation_mark ∧ d ≠ apostrophe.
Proof.
  unfold escape_char.
  destruct (N.eqb_spec c ampersand); [|
  destruct (N.eqb_spec c less_than); [|
  destruct (N.eqb_spec c greater_than); [|
  destruct (N.eqb_spec c quotation_mark); [|
  destruct (N.eqb_spec c apostrophe)]]]];
    intros Hd; repeat (apply elem_of_cons in Hd as [->|Hd]; [done|]);
    by apply elem_of_nil in Hd.
Qed.

Lemma html_escape_markup s d :
  d ∈ html_escape s true →
  d ≠ less_than ∧ d ≠ greater_than ∧ d ≠ quotation_mark ∧ d ≠ apostrophe.
Proof.
  rewrite html_escape_chars. intros (c & Hd & _)%list_elem_of_bind.
  by eapply escape_char_markup.
Qed.

Lemma count_app c s1 s2 : count c (s1 ++ s2) = (count c s1 + count c s2)%nat.
Proof. unfold count. by rewrite filter_app, length_app. Qed.

Lemma count_absent c s : c ∉ s → count c s = 0%nat.
Proof.
  intros Hc. unfold count. rewrite filter_none; [done|].
  intros d Hd ->. done.
Qed.

Lemma count_html_escape s :
  count less_than (html_escape s true) = 0%nat ∧
  count greater_than (html_escape s true) = 0%nat ∧
  count quotation_mark (html_escape s true) = 0%nat ∧
  count apostrophe (html_escape s true) = 0%nat.
Proof.
  split_and!; apply count_absent; intros Hin;
    apply html_escape_markup in Hin as (? & ? & ? & ?); done.
Qed.

(** X12.  Whatever the name and the colour of the subject, the badge has the
    markup of the template and no more: two [<], two [>], the four quotation
    marks of the two attributes and no apostrophe; the name and the
    colour cannot open a tag or close an attribute. *)
Theorem get_html_badge_markup (self : Subject) :
  let html := safe_data (get_html_badge self) in
  count less_than html = 2%nat ∧ count greater_than html = 2%nat ∧
  count quotation_mark html = 4%nat ∧ count apostrophe html = 0%nat.
Proof.
  intros html. subst html. unfold get_html_badge, escape.
  cbn [safe_data].
  destruct (count_html_escape (subject_name self)) as (Hn1 & Hn2 & Hn3 & Hn4).
  destruct (count_html_escape (subject_color self)) as (Hc1 & Hc2 & Hc3 & Hc4).
  rewrite !count_app.
  rewrite Hn1, Hn2, Hn3, Hn4, Hc1, Hc2, Hc3, Hc4.
  split_and!; reflexivity.
Qed.

Lemma get_html_badge_markup_witness :
  safe_data (get_html_badge script_subject)
  = py "<span class=" ++ [quotation_mark] ++ py "badge badge-primary"
    ++ [quotation_mark] ++ py " style=" ++ [quotation_mark]
    ++ py "background-color: red&quot; onclick=&#x27;x()"
    ++ [quotation_mark] ++ py ">&lt;b&gt;R&amp;D&lt;/b&gt;</span>" ∧
  count less_than (safe_data (get_html_badge script_subject)) = 2%nat.
Proof.
  split; [vm_compute; reflexivity|].
  apply (get_html_badge_markup script_subject).
Defined.

Ltac literals :=
  repeat match goal with
    | H : context [py ?s] |- _ =>
        let v := eval vm_compute in (py s) in change (py s) with v in H
    | |- context [py ?s] =>
        let v := eval vm_compute in (py s) in change (py s) with v
    end.

Ltac escape_cases c :=
  unfold escape_char;
  destruct (N.eqb_spec c ampersand) as [?|?]; [subst c|
  destruct (N.eqb_spec c less_than) as [?|?]; [subst c|
  destruct (N.eqb_spec c greater_than) as [?|?]; [subst c|
  destruct (N.eqb_spec c quotation_mark) as [?|?]; [subst c|
  destruct (N.eqb_spec c apostrophe) as [?|?]; [subst c|]]]]].

Lemma escape_char_plain c : html_special c = false → escape_char c = [c].
Proof.
  unfold html_special. intros H. escape_cases c; try done.
Qed.

Lemma escape_char_special c :
  html_special c = true →
  ∃ e, escape_char c = ampersand :: e ∧ e ≠ [].
Proof.
  unfold html_special. intros H. escape_cases c; literals; eauto.
  done.
Qed.

Lemma html_escape_plain s :
  Forall (λ c, html_special c = false) s → html_escape s true = s.
Proof.
  rewrite html_escape_chars. induction 1 as [|c s Hc Hs IH]; [done|].
  by rewrite bind_cons, IH, escape_char_plain.
Qed.

Lemma html_escape_length s : (length s ≤ length (html_escape s true))%nat.
Proof.
  rewrite html_escape_chars. induction s as [|c s IH]; [done|].
  rewrite bind_cons, length_app. simpl.
  destruct (html_special c) eqn:Hc.
  - destruct (escape_char_special c Hc) as (e & -> & _). simpl. lia.
  - rewrite escape_char_plain by done. simpl. lia.
Qed.

Lemma html_escape_longer s :
  Exists (λ c, html_special c = true) s →
  (length s < length (html_escape s true))%nat ∧
  Exists (λ c, html_special c = true) (html_escape s true).
Proof.
  intros Hex. split.
  - pose proof html_escape_length as Hlen. revert Hlen.
    rewrite html_escape_chars. setoid_rewrite html_escape_chars. intros Hlen.
    induction Hex as [c s Hc|c s Hs IH].
    + rewrite bind_cons, length_app.
      destruct (escape_char_special c Hc) as ([|? e] & -> & He); [done|].
      specialize (Hlen s). simpl. lia.
    + rewrite bind_cons, length_app. simpl.
      assert (1 ≤ length (escape_char c))%nat; [|lia].
      destruct (html_special c) eqn:Hc.
      * destruct (escape_char_special c Hc) as (e & -> & _). simpl. lia.
      * by rewrite escape_char_plain.
  - apply Exists_exists in Hex as (c & Hin & Hc).
    apply Exists_exists. exists ampersand. split; [|done].
    rewrite html_escape_chars. apply list_elem_of_bind. exists c.
    split; [|done]. destruct (escape_char_special c Hc) as (e & -> & _). by left.
Qed.

(** X13.  A text without [&], [<], [>] and quotes is its own escape, and only
    such a text is; what [escape] returns is escaped anew when it is passed
    to [escape] again, unless nothing was to be escaped in the first place. *)
Theorem html_escape_twice (s : str) :
  (html_escape s true = s ↔ Forall (λ c, html_special c = false) s) ∧
  (html_escape (html_escape s true) true = html_escape s true ↔
   Forall (λ c, html_special c = false) s).
Proof.
  assert (¬ Forall (λ c, html_special c = false) s →
          Exists (λ c, html_special c = true) s) as Hex.
  { intros Hn. apply not_Forall_Exists in Hn; [|apply _].
    eapply Exists_impl; [done|]. intros c Hc. simpl in Hc.
    destruct (html_special c); [done|by exfalso; apply Hc]. }
  split; split.
  - intros Heq. destruct (decide (Forall (λ c, html_special c = false) s))
      as [|Hn]; [done|].
    apply Hex, html_escape_longer in Hn as [Hlen _]. rewrite Heq in Hlen. lia.
  - apply html_escape_plain.
  - intros Heq. destruct (decide (Forall (λ c, html_special c = false) s))
      as [|Hn]; [done|].
    apply Hex, html_escape_longer in Hn as [_ Hn].
    apply html_escape_longer in Hn as [Hlen _]. rewrite Heq in Hlen. lia.
  - intros Hs. rewrite (html_escape_plain s Hs). by apply html_escape_plain.
Qed.

Lemma escape_char_inj_app c d s t :
  escape_char c ++ s = escape_char d ++ t → c = d ∧ s = t.
Proof.
  escape_cases c; escape_cases d; literals;
    unfold ampersand, less_than, greater_than, quotation_mark, apostrophe in *;
    intros H; by simplify_eq/=.
Qed.

Lemma html_escape_inj s t :
  html_escape s true = html_escape t true → s = t.
Proof.
  rewrite !html_escape_chars. revert t.
  induction s as [|c s IH]; intros [|d t]; rewrite ?bind_cons; [done| | |].
  - intros H. apply (f_equal length) in H. rewrite length_app in H. simpl in H.
    destruct (html_special d) eqn:Hd.
    + destruct (escape_char_special d Hd) as (e & He & _). by rewrite He in H.
    + by rewrite escape_char_plain in H.
  - intros H. apply (f_equal length) in H. rewrite length_app in H. simpl in H.
    destruct (html_special c) eqn:Hc.
    + destruct (escape_char_special c Hc) as (e & He & _). by rewrite He in H.
    + by rewrite escape_char_plain in H.
  - intros [-> H]%escape_char_inj_app. f_equal. by apply IH.
Qed.

Lemma split_at_first {A} (x : A) l1 r1 l2 r2 :
  x ∉ l1 → x ∉ l2 → l1 ++ x :: r1 = l2 ++ x :: r2 → l1 = l2 ∧ r1 = r2.
Proof.
  revert l2. induction l1 as [|a l1 IH]; intros [|b l2] H1 H2 Heq; simplify_eq/=.
  - done.
  - destruct H2. by left.
  - destruct H1. by left.
  - destruct (IH l2) as [-> ->]; [| |done..].
    + intros ?. apply H1. by right.
    + intros ?. apply H2. by right.
Qed.

(** X14.  Two subjects have the same badge only when they have the same name
    and the same colour: escaping loses nothing of either. *)
Theorem get_html_badge_inj (s1 s2 : Subject) :
  get_html_badge s1 = get_html_badge s2 → s1 = s2.
Proof.
  unfold get_html_badge, escape. cbn [safe_data]. intros [= H].
  literals. cbn [app] in H. simplify_eq/=.
  apply split_at_first in H as [Hcolor Hname].
  - simplify_eq/=. apply app_inv_tail in Hname.
    apply html_escape_inj in Hcolor, Hname.
    destruct s1, s2. simpl in *. by subst.
  - intros Hin. by apply html_escape_markup in Hin as (_ & _ & ? & _).
  - intros Hin. by apply html_escape_markup in Hin as (_ & _ & ? & _).
Qed.

Lemma get_html_badge_inj_witness :
  get_html_badge script_subject
  = get_html_badge {| subject_name := py "<b>R&D</b>";
                      subject_color := subject_color script_subject |} ∧
  script_subject = {| subject_name := py "<b>R&D</b>";
                      subject_color := subject_color script_subject |}.
Proof.
  split; [reflexivity|]. apply get_html_badge_inj. reflexivity.
Defined.

(** ** The planner and the channel members *)

Ltac sfields :=
  cbn [site_db users channel_members daily_schedules notes set_site_db
       set_daily_schedules set_notes set_channel_members];
  fields.

Ltac skeys :=
  unfold references;
  cbn [fk_value fk_set_null fk_on_delete ChannelMember_channel
       DailySchedule_month Note_day snd fst].

Lemma lookup_daily_delete_daily pks s k :
  daily_schedules (delete_daily_schedules pks s) !! k
  = if decide (k ∈ pks) then None else daily_schedules s !! k.
Proof. unfold delete_daily_schedules. sfields. apply lookup_delete_pks. Qed.

Lemma lookup_notes_delete_daily pks s k n :
  notes (delete_daily_schedules pks s) !! k = Some n ↔
  notes s !! k = Some n ∧ note_day n ∉ pks.
Proof.
  unfold delete_daily_schedules. sfields.
  rewrite lookup_collect_cascade by done. skeys. done.
Qed.

Lemma lookup_monthly_delete_monthly pks s k :
  monthly_schedules (site_db (delete_monthly_schedules pks s)) !! k
  = if decide (k ∈ pks) then None else monthly_schedules (site_db s) !! k.
Proof. unfold delete_monthly_schedules. sfields. apply lookup_delete_pks. Qed.

Lemma lookup_daily_delete_monthly pks s k d :
  daily_schedules (delete_monthly_schedules pks s) !! k = Some d ↔
  daily_schedules s !! k = Some d ∧ ds_month d ∉ pks.
Proof.
  unfold delete_monthly_schedules. sfields. rewrite lookup_daily_delete_daily.
  sfields. case_decide as Hk.
  - apply elem_of_collect_cascade in Hk as (r & Hr & Href); [|done].
    unfold references in Href. cbn [fk_value DailySchedule_month] in Href.
    split; [done|]. intros [? ?]. by simplify_eq.
  - rewrite lookup_collect_cascade by done. skeys. done.
Qed.

Lemma lookup_notes_delete_monthly pks s k n :
  notes (delete_monthly_schedules pks s) !! k = Some n ↔
  notes s !! k = Some n ∧
  ∀ d, daily_schedules s !! note_day n = Some d → ds_month d ∉ pks.
Proof.
  unfold delete_monthly_schedules. sfields. rewrite lookup_notes_delete_daily.
  sfields. split.
  - intros [Hn Hnot]. split; [done|]. intros d Hd Hin. apply Hnot.
    apply elem_of_collect_cascade; [done|]. exists d. split; [done|]. skeys. done.
  - intros [Hn Hnot]. split; [done|]. intros Hin.
    apply elem_of_collect_cascade in Hin as (d & Hd & Href); [|done].
    unfold references in Href. cbn [fk_value DailySchedule_month] in Href.
    by eapply Hnot.
Qed.

(** X15.  Deleting a monthly schedule deletes its days and the notes of these
    days; the other schedules, days and notes stay as they are, and so do
    the users, the channels and their members. *)
Theorem MonthlySchedule_delete_cascades (s : Site) (pk : Z) :
  let s' := MonthlySchedule_delete pk s in
  (∀ k m, monthly_schedules (site_db s') !! k = Some m ↔
          monthly_schedules (site_db s) !! k = Some m ∧ k ≠ pk) ∧
  (∀ k d, daily_schedules s' !! k = Some d ↔
          daily_schedules s !! k = Some d ∧ ds_month d ≠ pk) ∧
  (∀ k n, notes s' !! k = Some n ↔
          notes s !! k = Some n ∧
          ∀ d, daily_schedules s !! note_day n = Some d → ds_month d ≠ pk) ∧
  users s' = users s ∧ channel_members s' = channel_members s ∧
  channels (site_db s') = channels (site_db s).
Proof.
  intros s'. subst s'. unfold MonthlySchedule_delete.
  assert (∀ x : Z, x ∉ ({[pk]} : gset Z) ↔ x ≠ pk) as Hs by set_solver.
  split_and!; try done.
  - intros k m. rewrite lookup_monthly_delete_monthly. case_decide as Hin.
    + split; [done|]. intros [_ Hne]. by apply Hs in Hne.
    + apply Hs in Hin. tauto.
  - intros k d. rewrite lookup_daily_delete_monthly. by rewrite Hs.
  - intros k n. rewrite lookup_notes_delete_monthly. by setoid_rewrite Hs.
Qed.

Lemma MonthlySchedule_delete_cascades_witness :
  monthly_schedules (site_db (MonthlySchedule_delete 1 scenario_site)) !! 1 = None ∧
  daily_schedules (MonthlySchedule_delete 1 scenario_site) !! 1 = None ∧
  notes (MonthlySchedule_delete 1 scenario_site) !! 1 = None ∧
  notes (MonthlySchedule_delete 1 scenario_site) !! 2
  = notes scenario_site !! 2.
Proof.
  destruct (MonthlySchedule_delete_cascades scenario_site 1)
    as (_ & _ & Hnotes & _).
  split_and!; [reflexivity..|].
  apply Hnotes. split; [reflexivity|]. intros d Hd.
  vm_compute in Hd. by simplify_eq.
Defined.

Lemma lookup_members_delete_channels pks s k m :
  channel_members (delete_channels pks s) !! k = Some m ↔
  channel_members s !! k = Some m ∧ member_channel m ∉ pks.
Proof.
  unfold delete_channels. sfields. rewrite lookup_collect_cascade by done.
  skeys. done.
Qed.

Lemma lookup_channels_delete_channels pks s k :
  channels (site_db (delete_channels pks s)) !! k
  = if decide (k ∈ pks) then None else channels (site_db s) !! k.
Proof. unfold delete_channels. sfields. apply lookup_delete_pks. Qed.

(** X16.  Deleting a channel ends the memberships in it and no other; the users
    stay. *)
Theorem Channel_delete_cascades (s : Site) (pk : Z) :
  let s' := Channel_delete pk s in
  (∀ k c, channels (site_db s') !! k = Some c ↔
          channels (site_db s) !! k = Some c ∧ k ≠ pk) ∧
  (∀ k m, channel_members s' !! k = Some m ↔
          channel_members s !! k = Some m ∧ member_channel m ≠ pk) ∧
  users s' = users s.
Proof.
  intros s'. subst s'. unfold Channel_delete.
  assert (∀ x : Z, x ∉ ({[pk]} : gset Z) ↔ x ≠ pk) as Hs by set_solver.
  split_and!; try done.
  - intros k c. rewrite lookup_channels_delete_channels. case_decide as Hin.
    + split; [done|]. intros [_ Hne]. by apply Hs in Hne.
    + apply Hs in Hin. tauto.
  - intros k m. rewrite lookup_members_delete_channels. by rewrite Hs.
Qed.

(** *** unique_together *)

Lemma ChannelMember_create_taken m s k r :
  channel_members s !! k = Some r →
  member_channel r = member_channel m → member_user r = member_user m →
  ChannelMember_create m s = (s, Raise IntegrityError).
Proof.
  intros Hk Hc Hu. unfold ChannelMember_create.
  rewrite decide_False; [done|]. intros (_ & _ & Hall).
  by destruct (Hall k r Hk).
Qed.

Lemma ChannelMember_create_pair m s :
  (ChannelMember_create m s).2 = Raise IntegrityError ∨
  ∃ k r, channel_members (ChannelMember_create m s).1 !! k = Some r ∧
         member_channel r = member_channel m ∧ member_user r = member_user m.
Proof.
  unfold ChannelMember_create. case_decide; [right|by left]. cbn [fst]. sfields.
  exists (next_pk (channel_members s)), m. by rewrite lookup_insert_eq.
Qed.

(** X17.  A user joins a channel once: joining is refused with IntegrityError,
    and nothing is written, when the user is a member already, and also when
    the channel or the user does not exist; otherwise the membership is
    stored under a new key.  Hence the second of two joins of the same user
    and channel is always refused. *)
Theorem ChannelMember_create_once (s : Site) (channel user : Z) :
  let m := {| member_channel := channel; member_user := user |} in
  ((∃ k r, channel_members s !! k = Some r ∧
           member_channel r = channel ∧ member_user r = user) ∨
   channels (site_db s) !! channel = None ∨ users s !! user = None →
   ChannelMember_create m s = (s, Raise IntegrityError)) ∧
  ((∀ k r, channel_members s !! k = Some r →
           ¬ (member_channel r = channel ∧ member_user r = user)) →
   is_Some (channels (site_db s) !! channel) → is_Some (users s !! user) →
   ∃ s', ChannelMember_create m s = (s', Done (next_pk (channel_members s))) ∧
         channel_members s' = <[next_pk (channel_members s) := m]> (channel_members s)) ∧
  (let r1 := ChannelMember_create m s in
   ChannelMember_create m r1.1 = (r1.1, Raise IntegrityError)).
Proof.
  intros m. split_and!.
  - intros [(k & r & Hk & Hc & Hu)|[Hc|Hu]].
    + by eapply ChannelMember_create_taken.
    + unfold ChannelMember_create. rewrite decide_False; [done|].
      intros ([? Hc'] & _). cbn in Hc'. congruence.
    + unfold ChannelMember_create. rewrite decide_False; [done|].
      intros (_ & [? Hu'] & _). cbn in Hu'. congruence.
  - intros Hnew Hc Hu. unfold ChannelMember_create. rewrite decide_True; [eauto|].
    split_and!; [done..|]. intros k r Hk. by apply (Hnew k r).
  - cbv zeta. destruct (ChannelMember_create_pair m s) as [Hr|(k & r & Hk & Hc & Hu)].
    + unfold ChannelMember_create in *. case_decide as Hd; [done|].
      cbn [fst]. by rewrite decide_False.
    + by eapply ChannelMember_create_taken.
Qed.

Lemma ChannelMember_create_once_witness :
  ChannelMember_create {| member_channel := 1; member_user := 20 |} scenario_site
  = (scenario_site, Raise IntegrityError) ∧
  (ChannelMember_create {| member_channel := 1; member_user := 10 |} scenario_site).2
  = Done 2 ∧
  (ChannelMember_create {| member_channel := 7; member_user := 10 |} scenario_site).2
  = Raise IntegrityError.
Proof.
  destruct (ChannelMember_create_once scenario_site 1 20) as (Htaken & _).
  destruct (ChannelMember_create_once scenario_site 7 10) as (Hmissing & _).
  split_and!.
  - apply Htaken. left. exists 1, {| member_channel := 1; member_user := 20 |}.
    split_and!; reflexivity.
  - reflexivity.
  - rewrite Hmissing; [done|]. right. left. reflexivity.
Defined.

(** *** The references of the site *)

Lemma delete_daily_schedules_valid pks s :
  site_references_valid s → site_references_valid (delete_daily_schedules pks s).
Proof.
  intros [Hmc Hmu Hms Hds Hn]. split; try done.
  - intros k d. rewrite lookup_daily_delete_daily. case_decide; [done|]. apply Hds.
  - intros k n Hk. apply lookup_notes_delete_daily in Hk as [Hk Hnot].
    rewrite lookup_daily_delete_daily, decide_False by done. by eapply Hn.
Qed.

Lemma delete_monthly_schedules_valid pks s :
  site_references_valid s → site_references_valid (delete_monthly_schedules pks s).
Proof.
  intros [Hmc Hmu Hms Hds Hn]. split; try done.
  - intros k m. rewrite lookup_monthly_delete_monthly. case_decide; [done|]. apply Hms.
  - intros k d Hk. apply lookup_daily_delete_monthly in Hk as [Hk Hnot].
    rewrite lookup_monthly_delete_monthly, decide_False by done. by eapply Hds.
  - intros k n Hk. apply lookup_notes_delete_monthly in Hk as [Hk Hnot].
    destruct (Hn k n Hk) as [d Hd]. exists d.
    apply lookup_daily_delete_monthly. split; [done|]. by apply Hnot.
Qed.

Lemma delete_channels_valid pks s :
  site_references_valid s → site_references_valid (delete_channels pks s).
Proof.
  intros [Hmc Hmu Hms Hds Hn]. split; try done.
  - intros k m Hk. apply lookup_members_delete_channels in Hk as [Hk Hnot].
    rewrite lookup_channels_delete_channels, decide_False by done. by eapply Hmc.
  - intros k m Hk. apply lookup_members_delete_channels in Hk as [Hk Hnot].
    by eapply Hmu.
Qed.

Lemma ChannelMember_create_valid m s :
  site_references_valid s → site_references_valid (ChannelMember_create m s).1.
Proof.
  intros [Hmc Hmu Hms Hds Hn]. unfold ChannelMember_create.
  case_decide as Hd; [|by split]. destruct Hd as (Hc & Hu & _).
  cbn [fst]. split; try done; sfields; intros k r Hk;
    (apply lookup_insert_Some in Hk as [[_ <-]|[_ Hk]]; [done|]).
  - by eapply Hmc.
  - by eapply Hmu.
Qed.

Lemma site_run_unique s o : members_unique s → members_unique (site_run s o).
Proof.
  intros Hu. destruct o; cbn [site_run]; try done.
  - intros k1 k2 m1 m2 H1 H2.
    apply lookup_members_delete_channels in H1 as [H1 _].
    apply lookup_members_delete_channels in H2 as [H2 _]. by eapply Hu.
  - unfold ChannelMember_create. case_decide as Hd; [|done].
    destruct Hd as (_ & _ & Hall). cbn [fst]. unfold members_unique. sfields.
    pose proof (next_pk_fresh (channel_members s)) as Hfresh.
    intros k1 k2 m1 m2 H1 H2 Hc Hus.
    apply lookup_insert_Some in H1 as [[<- <-]|[Hne1 H1]];
      apply lookup_insert_Some in H2 as [[<- <-]|[Hne2 H2]]; try done.
    + by destruct (Hall k2 m2 H2).
    + by destruct (Hall k1 m1 H1).
    + by eapply Hu.
Qed.

(** X18.  No history of deletes of schedules, days and channels and of joins
    leaves a membership without its channel or its user, a schedule without
    its user, a day without its month or a note without its day, nor a user
    twice in one channel. *)
Theorem site_stays_valid (s : Site) (os : list site_operation) :
  site_references_valid s → members_unique s →
  site_references_valid (site_run_all s os) ∧ members_unique (site_run_all s os).
Proof.
  unfold site_run_all. revert s. induction os as [|o os IH]; intros s Hv Hu; [done|].
  simpl. apply IH; [|by apply site_run_unique].
  destruct o; cbn [site_run].
  - by apply delete_monthly_schedules_valid.
  - by apply delete_daily_schedules_valid.
  - by apply delete_channels_valid.
  - by apply ChannelMember_create_valid.
Qed.

Lemma site_references_valid_scenario : site_references_valid scenario_site.
Proof.
  split.
  - intros k m Hk.
    by_table (λ (_ : Z) m, is_Some (channels (site_db scenario_site) !! member_channel m))
             (channel_members scenario_site).
  - intros k m Hk.
    by_table (λ (_ : Z) m, is_Some (users scenario_site !! member_user m))
             (channel_members scenario_site).
  - intros k m Hk.
    by_table (λ (_ : Z) m, is_Some (users scenario_site !! ms_user m))
             (monthly_schedules (site_db scenario_site)).
  - intros k d Hk.
    by_table (λ (_ : Z) d, is_Some (monthly_schedules (site_db scenario_site) !! ds_month d))
             (daily_schedules scenario_site).
  - intros k n Hk.
    by_table (λ (_ : Z) n, is_Some (daily_schedules scenario_site !! note_day n))
             (notes scenario_site).
Qed.

Lemma members_unique_scenario : members_unique scenario_site.
Proof.
  intros k1 k2 m1 m2 H1 H2 _ _.
  change (channel_members scenario_site)
    with ({[ 1 := {| member_channel := 1; member_user := 20 |} ]} : gmap Z ChannelMember)
    in H1, H2.
  apply lookup_singleton_Some in H1 as [<- _].
  by apply lookup_singleton_Some in H2 as [<- _].
Qed.

Lemma site_stays_valid_witness :
  site_references_valid scenario_site ∧ members_unique scenario_site ∧
  site_references_valid
    (site_run_all scenario_site
       [ChannelMemberCreate {| member_channel := 1; member_user := 10 |};
        MonthlyScheduleDelete 1; ChannelDelete 1; DailyScheduleDelete 2]) ∧
  members_unique
    (site_run_all scenario_site
       [ChannelMemberCreate {| member_channel := 1; member_user := 10 |};
        MonthlyScheduleDelete 1; ChannelDelete 1; DailyScheduleDelete 2]).
Proof.
  split_and!;
    [exact site_references_valid_scenario | exact members_unique_scenario | ..];
    apply (site_stays_valid scenario_site _ site_references_valid_scenario
             members_unique_scenario).
Defined.

(** ** __str__ *)

Lemma digits_no_hyphen u : hyphen ∉ digits u.
Proof.
  induction u; simpl; [by intros ?%elem_of_nil|..];
    by intros [?|?]%elem_of_cons.
Qed.

Lemma digits_inj u v : digits u = digits v → u = v.
Proof.
  revert v. induction u; intros []; simpl; intros H; simplify_eq; try done;
    f_equal; auto.
Qed.

Lemma digits_head u :
  u ≠ Decimal.Nil → ∃ c r, digits u = c :: r ∧ c ≠ hyphen.
Proof. destruct u; [done|..]; intros _; simpl; by do 2 eexists. Qed.

Lemma to_int_not_empty z :
  Z.to_int z ≠ Decimal.Pos Decimal.Nil ∧ Z.to_int z ≠ Decimal.Neg Decimal.Nil.
Proof.
  assert (Decimal.norm (Z.to_int z) = Z.to_int z) as Hn.
  { rewrite <-DecimalZ.to_of. by rewrite DecimalZ.of_to. }
  split; intros Heq; rewrite Heq in Hn; done.
Qed.

(** Where an int ends in front of a hyphen is plain from the text. *)
Lemma str_of_int_split a b r1 r2 :
  str_of_int a ++ hyphen :: r1 = str_of_int b ++ hyphen :: r2 →
  a = b ∧ r1 = r2.
Proof.
  unfold str_of_int.
  destruct (to_int_not_empty a) as [Ha1 Ha2].
  destruct (to_int_not_empty b) as [Hb1 Hb2].
  destruct (Z.to_int a) as [u|u] eqn:Ea, (Z.to_int b) as [v|v] eqn:Eb; intros H.
  - apply split_at_first in H as [Hd ->]; [|apply digits_no_hyphen..].
    apply digits_inj in Hd as ->. split; [|done].
    apply DecimalZ.to_int_inj. congruence.
  - destruct (digits_head u) as (c & r & Hu & Hc); [congruence|].
    rewrite Hu in H. by simplify_eq/=.
  - destruct (digits_head v) as (c & r & Hv & Hc); [congruence|].
    rewrite Hv in H. by simplify_eq/=.
  - simplify_eq/=. apply split_at_first in H as [Hd ->]; [|apply digits_no_hyphen..].
    apply digits_inj in Hd as ->. split; [|done].
    apply DecimalZ.to_int_inj. congruence.
Qed.

(** X19.  The text of a monthly schedule tells its month, its year and the name
    of its user: two schedules with the same text agree on the three, and,
    months being unique, two stored schedules with the same text are one. *)
Theorem MonthlySchedule___str___inj (s : Site) (m1 m2 : MonthlySchedule) (t : str) :
  MonthlySchedule___str__ s m1 = inr t →
  MonthlySchedule___str__ s m2 = inr t →
  ms_month m1 = ms_month m2 ∧ ms_year m1 = ms_year m2 ∧
  user_username <$> users s !! ms_user m1
  = user_username <$> users s !! ms_user m2 ∧
  (months_unique (site_db s) →
   ∀ k1 k2, monthly_schedules (site_db s) !! k1 = Some m1 →
            monthly_schedules (site_db s) !! k2 = Some m2 → k1 = k2).
Proof.
  unfold MonthlySchedule___str__, related.
  destruct (users s !! ms_user m1) as [u1|]; [|done].
  destruct (users s !! ms_user m2) as [u2|]; [|done].
  intros [= <-] [= H]. cbn [app] in H.
  apply str_of_int_split in H as [Hm H].
  apply str_of_int_split in H as [Hy H].
  split_and!; [done|done|cbn; congruence|].
  intros Hu k1 k2 H1 H2. by eapply Hu.
Qed.

Lemma MonthlySchedule___str___inj_witness :
  MonthlySchedule___str__ scenario_site may_2024 = inr (py "5-2024-kiran") ∧
  ms_month may_2024 = 5.
Proof.
  split; [vm_compute; reflexivity|].
  destruct (MonthlySchedule___str___inj scenario_site may_2024
              {| ms_month := 5; ms_year := 2024; ms_days := 0; ms_user := 10 |}
              (py "5-2024-kiran")) as (Hm & _); [vm_compute; reflexivity..|].
  exact Hm.
Defined.

(** X20.  With every reference of the site in place, the text of a stored
    schedule, day or membership is always there: none raises; with the user
    of a schedule missing, DoesNotExist is raised. *)
Theorem str_defined (s : Site) :
  site_references_valid s →
  (∀ k m, monthly_schedules (site_db s) !! k = Some m →
          ∃ u, users s !! ms_user m = Some u ∧
               MonthlySchedule___str__ s m
               = inr (str_of_int (ms_month m) ++ [hyphen] ++ str_of_int (ms_year m)
                      ++ [hyphen] ++ user_username u)) ∧
  (∀ k d, daily_schedules s !! k = Some d →
          ∃ m t, monthly_schedules (site_db s) !! ds_month d = Some m ∧
                 MonthlySchedule___str__ s m = inr t ∧
                 DailySchedule___str__ s d
                 = inr (t ++ [hyphen] ++ str_of_int (ms_year m) ++ [hyphen]
                        ++ str_of_int (ds_day d) ++ [hyphen] ++ ds_day_of_week d)) ∧
  (∀ k m, channel_members s !! k = Some m →
          ∃ u, users s !! member_user m = Some u ∧
               ChannelMember___str__ s m = inr (user_username u)) ∧
  (∀ m, users s !! ms_user m = None →
        MonthlySchedule___str__ s m = inl (DoesNotExist "User")).
Proof.
  intros [Hmc Hmu Hms Hds Hn].
  assert (∀ k m, monthly_schedules (site_db s) !! k = Some m →
          ∃ u, users s !! ms_user m = Some u ∧
               MonthlySchedule___str__ s m
               = inr (str_of_int (ms_month m) ++ [hyphen] ++ str_of_int (ms_year m)
                      ++ [hyphen] ++ user_username u)) as Hmonth.
  { intros k m Hk. destruct (Hms k m Hk) as [u Hu]. exists u. split; [done|].
    unfold MonthlySchedule___str__, related. by rewrite Hu. }
  split_and!; [done| | |].
  - intros k d Hk. destruct (Hds k d Hk) as [m Hm].
    destruct (Hmonth _ m Hm) as (u & Hu & Hstr).
    exists m. eexists. split_and!; [done..|].
    unfold DailySchedule___str__, related. by rewrite Hm, Hstr.
  - intros k m Hk. destruct (Hmu k m Hk) as [u Hu]. exists u. split; [done|].
    unfold ChannelMember___str__, related. by rewrite Hu.
  - intros m Hu. unfold MonthlySchedule___str__, related. by rewrite Hu.
Qed.

Lemma str_defined_witness :
  site_references_valid scenario_site ∧
  DailySchedule___str__ scenario_site may_17
  = inr (py "5-2024-kiran-2024-17-Friday").
Proof.
  split; [exact site_references_valid_scenario|].
  destruct (str_defined scenario_site site_references_valid_scenario)
    as (_ & Hday & _).
  destruct (Hday 1 may_17 eq_refl) as (m & t & Hm & Ht & ->).
  vm_compute in Hm. injection Hm as <-.
  vm_compute in Ht. injection Ht as <-.
  vm_compute. reflexivity.
Defined.

(** X21.  The text of a note is never there: [__str__] of Note reads [self.month],
    which no Note has, and raises AttributeError, whatever the note and
    whatever is stored; [self.day_of_week], further on, is missing too. *)
Theorem Note___str___raises (s : Site) (pk : Z) (self : Note) :
  Note___str__ s pk self = inl (AttributeError "Note" "month") ∧
  Note_getattr s pk self "day_of_week" = inl (AttributeError "Note" "day_of_week") ∧
  Note_getattr s pk self "id" = inr (VInt pk) ∧
  (∀ d, daily_schedules s !! note_day self = Some d →
        Note_getattr s pk self "day" = inr (VDailySchedule d)).
Proof.
  split_and!; [reflexivity..|].
  intros d Hd. unfold Note_getattr, related. cbn. by rewrite Hd.
Qed.

(** ** The order of the channels *)

Global Instance name_le_total : Total name_le.
Proof. intros x y. apply str_leb_total. Qed.

Global Instance name_le_trans : Transitive name_le.
Proof. intros x y z. apply str_leb_trans. Qed.

Lemma StronglySorted_strengthen {A} (R Q : relation A) l :
  StronglySorted R l → NoDup l →
  (∀ x y, x ∈ l → y ∈ l → x ≠ y → Q x y) →
  StronglySorted (λ x y, R x y ∧ Q x y) l.
Proof.
  induction 1 as [|a l Hs IH Ha]; intros Hnd HQ; [constructor|].
  apply NoDup_cons in Hnd as [Hnotin Hnd].
  constructor.
  - apply IH; [done|]. intros x y Hx Hy. apply HQ; by right.
  - apply Forall_forall. intros y Hy. split.
    + by eapply (proj1 (Forall_forall _ _)) in Ha.
    + apply HQ; [by left|by right|]. intros ->. done.
Qed.

(** X22.  The channels are listed by name, each stored channel once, in the
    lexicographic order of the code points; names being unique, no two
    neighbours have the same name, so that the order of the listing is
    settled by the names alone. *)
Theorem Channel_objects_all_sorted (db : DB) :
  (∀ k c, (k, c) ∈ Channel_objects_all db ↔ channels db !! k = Some c) ∧
  NoDup (Channel_objects_all db) ∧
  StronglySorted (λ x y, str_le (channel_name x.2) (channel_name y.2))
    (Channel_objects_all db) ∧
  (channels_unique db →
   StronglySorted (λ x y, str_le (channel_name x.2) (channel_name y.2) ∧
                          channel_name x.2 ≠ channel_name y.2)
     (Channel_objects_all db)).
Proof.
  assert (∀ k c, (k, c) ∈ Channel_objects_all db ↔ channels db !! k = Some c) as Hin.
  { intros k c. unfold Channel_objects_all.
    by rewrite merge_sort_Permutation, elem_of_map_to_list. }
  assert (NoDup (Channel_objects_all db)) as Hnd.
  { unfold Channel_objects_all. rewrite merge_sort_Permutation.
    apply NoDup_map_to_list. }
  assert (StronglySorted name_le (Channel_objects_all db)) as Hs.
  { apply (StronglySorted_merge_sort name_le). }
  split_and!; [done..|].
  intros Hu. apply (StronglySorted_strengthen name_le); [done..|].
  intros [k1 c1] [k2 c2] H1%Hin H2%Hin Hne Hname. simpl in Hname.
  assert (k1 = k2) as -> by (eapply Hu; eauto).
  congruence.
Qed.

(** ** Names without a letter or a digit *)

Lemma not_alnum_word c :
  ascii_alnum c = false → ascii_word (ascii_lower c) = true →
  ascii_lower c = underscore.
Proof.
  unfold ascii_alnum, ascii_word, ascii_lower, underscore. intros H1 H2. nbool.
Qed.

Lemma slugify_elem U s c :
  basic_latin U → Forall is_ascii s →
  c ∈ slugify U s false →
  c = hyphen ∨ ∃ c0, c0 ∈ s ∧ c = ascii_lower c0 ∧ ascii_word c = true.
Proof.
  intros HU Hs. unfold slugify.
  rewrite (normalize_ascii U HU NFKD s Hs), encode_ascii_ignore_ascii by done.
  rewrite (lower_ascii U HU s Hs). intros Hc.
  destruct (strip_sublist [hyphen; underscore]
              (sub_hyphen_space_runs U false
                 (sub_not_word_space_hyphen U (ascii_lower <$> s))))
    as (l1 & l2 & Heq).
  assert (c ∈ sub_hyphen_space_runs U false
                (sub_not_word_space_hyphen U (ascii_lower <$> s))) as Hc3.
  { rewrite Heq. apply elem_of_app. right. apply elem_of_app. by left. }
  apply sub_hyphen_space_runs_shape in Hc3 as [->|[Hc2 Hsp]]; [by left|].
  apply list_elem_of_filter in Hc2 as [Hkeep Hc1].
  apply list_elem_of_fmap in Hc1 as (c0 & -> & Hc0).
  assert (is_ascii (ascii_lower c0)) as Ha.
  { pose proof (ascii_lower_ascii s Hs) as Hl.
    eapply (proj1 (Forall_forall _ _)) in Hl; [done|].
    apply list_elem_of_fmap. eauto. }
  rewrite Hsp, orb_false_r in Hkeep.
  rewrite (re_word_ascii U HU _ Ha) in Hkeep.
  apply orb_true_iff in Hkeep as [Hw|Hh].
  - right. by exists c0.
  - left. by apply N.eqb_eq in Hh.
Qed.

(** X23.  A name of Basic Latin without a letter and without a digit has the
    empty slug; so once a channel with such a name is stored, [save] refuses
    every other channel with such a name. *)
Theorem Channel_save_empty_slug (U : unicodedata) (self : ChannelInstance) (db : DB) :
  basic_latin U →
  Forall (λ c, is_ascii c ∧ ascii_alnum c = false) (channel_name (channel_fields self)) →
  channel_slug (channel_fields (Channel_save U self db).1.1) = [] ∧
  (∀ k r, channels db !! k = Some r → channel_pk self ≠ Some k →
          channel_slug r = [] →
          Channel_save U self db = (set_slug [] self, db, Raise IntegrityError)).
Proof.
  intros HU Hname.
  assert (slugify U (channel_name (channel_fields self)) false = []) as Hslug.
  { pose proof (slugify_well_formed U HU (channel_name (channel_fields self))) as Hwf.
    apply well_formed_slug_spec in Hwf as (_ & _ & Hh & _).
    destruct (slugify U (channel_name (channel_fields self)) false) as [|c r] eqn:E;
      [done|].
    specialize (Hh c eq_refl).
    assert (c ∈ slugify U (channel_name (channel_fields self)) false) as Hc
      by (rewrite E; by left).
    apply slugify_elem in Hc; [|done|].
    - destruct Hc as [->|(c0 & Hc0 & -> & Hw)]; [by vm_compute in Hh|].
      eapply (proj1 (Forall_forall _ _)) in Hname as [_ Hn]; [|done].
      rewrite (not_alnum_word c0 Hn Hw) in Hh. by vm_compute in Hh.
    - eapply Forall_impl; [exact Hname|]. by intros ? [? _]. }
  split.
  - by rewrite Channel_save_fields.
  - intros k r Hk Hpk Hr. rewrite <-Hslug.
    apply (Channel_save_conflict U self db k r); [done..|].
    right. by rewrite Hslug.
Qed.

Lemma Channel_save_empty_slug_witness :
  let db1 := (Channel_save ucd_excerpt (set_name (py "?!") math_help) empty_db).1.2 in
  channel_slug <$> channels db1 !! 1 = Some [] ∧
  Channel_save ucd_excerpt (set_name (py "- _ -") math_help) db1
  = (set_slug [] (set_name (py "- _ -") math_help), db1, Raise IntegrityError).
Proof.
  split; [reflexivity|].
  destruct (Channel_save_empty_slug ucd_excerpt (set_name (py "- _ -") math_help)
              (Channel_save ucd_excerpt (set_name (py "?!") math_help) empty_db).1.2
              basic_latin_ucd_excerpt) as [_ Htaken].
  - apply Forall_forall. intros c Hc.
    repeat (apply elem_of_cons in Hc as [->|Hc]; [done|]).
    by apply elem_of_nil in Hc.
  - apply (Htaken 1 (channel_fields
             (Channel_save ucd_excerpt (set_name (py "?!") math_help) empty_db).1.1));
      [reflexivity|done|reflexivity].
Defined.
